(** * AI Music Cover Creator (music.py): embedding and verified properties

    The program is a Streamlit wizard around three external services
    (yt-dlp, the upload endpoint, the music-generation endpoint).  The
    embedding keeps the pure parts executable (string handling, hex and
    base64 coding, MD5 renaming) and threads the session state, the
    memoisation cache, the temporary files and the trace of external calls
    through one state-and-exception monad. *)

From Stdlib Require Import List ZArith NArith Bool Lia String Ascii.
Import ListNotations.

(** ** Python strings

    A Python 3 [str] is a sequence of Unicode code points. *)

Module PyStr.

Open Scope N_scope.

Definition char := N.
Definition str := list char.
Definition bytes := list N.

(** An ASCII literal of the source as a [str]. *)
Definition py (s : string) : str := map N_of_ascii (list_ascii_of_string s).

Definition nl : char := 10.
Definition dquote : char := 34.

Definition char_eqb (a b : char) : bool := N.eqb a b.

Fixpoint str_eqb (a b : str) : bool :=
  match a, b with
  | [], [] => true
  | x :: a', y :: b' => char_eqb x y && str_eqb a' b'
  | _, _ => false
  end.

(** Truth value of a [str]: only the empty string is false. *)
Definition str_truthy (s : str) : bool :=
  match s with
  | [] => false
  | _ :: _ => true
  end.

(** [str.isspace] on one code point, the set [str.strip()] removes. *)
Definition isspace (c : char) : bool :=
  ((9 <=? c) && (c <=? 13)) || ((28 <=? c) && (c <=? 32))
  || (c =? 133) || (c =? 160) || (c =? 5760)
  || ((8192 <=? c) && (c <=? 8202))
  || (c =? 8232) || (c =? 8233) || (c =? 8239) || (c =? 8287) || (c =? 12288).

Fixpoint lstrip (s : str) : str :=
  match s with
  | [] => []
  | c :: s' => if isspace c then lstrip s' else s
  end.

Definition rstrip (s : str) : str := rev (lstrip (rev s)).

(** [s.strip()] *)
Definition strip (s : str) : str := rstrip (lstrip s).

(** [s.split(sep)] for a one-character separator: never the empty list. *)
Fixpoint split (sep : char) (s : str) : list str :=
  match s with
  | [] => [[]]
  | c :: s' =>
      if char_eqb c sep then [] :: split sep s'
      else match split sep s' with
           | l :: ls => (c :: l) :: ls
           | [] => [[c]]
           end
  end.

(** [sep.join(parts)] *)
Fixpoint join (sep : str) (parts : list str) : str :=
  match parts with
  | [] => []
  | [p] => p
  | p :: ps => p ++ sep ++ join sep ps
  end.

Fixpoint startswith (p s : str) : bool :=
  match p, s with
  | [], _ => true
  | x :: p', y :: s' => char_eqb x y && startswith p' s'
  | _ :: _, [] => false
  end.

Definition endswith (p s : str) : bool := startswith (rev p) (rev s).

(** [s.replace(old, new)] for a non-empty [old]: occurrences are replaced
    left to right and do not overlap.  [skip] counts the characters of a
    match that was just replaced and are still to be passed over. *)
Fixpoint replace_from (old new : str) (skip : nat) (s : str) : str :=
  match s with
  | [] => []
  | c :: s' =>
      match skip with
      | S k => replace_from old new k s'
      | O =>
          if startswith old s
          then new ++ replace_from old new (Nat.pred (List.length old)) s'
          else c :: replace_from old new O s'
      end
  end.

Definition replace (old new s : str) : str := replace_from old new O s.

(** [sub in s] for strings. *)
Fixpoint contains (sub s : str) : bool :=
  startswith sub s ||
  match s with
  | [] => false
  | _ :: s' => contains sub s'
  end.

End PyStr.

Import PyStr.

(** ** The lyrics formatter (music.py, lines 119-125) *)

(** The test of the generator expression: [if line.strip()]. *)
Definition nonblank (line : str) : bool := str_truthy (strip line).

Definition format_lyrics_for_minimax (lyrics : str) : str :=
  let lines := split nl (strip lyrics) in
  let formatted :=
    py "##" ++ join [nl] (map strip (filter nonblank lines)) ++ py "##" in
  formatted.

(** The formatter as the specification words it: split the input into
    lines, discard the blank ones, strip the others, rejoin with newline,
    wrap in the sentinel. *)
Definition format_lyrics_spec (lyrics : str) : str :=
  py "##" ++ join [nl] (map strip (filter nonblank (split nl lyrics))) ++ py "##".

Definition has_nonblank_line (lyrics : str) : bool :=
  existsb nonblank (split nl lyrics).

(** ** Byte-level codecs used by the program *)

Module Codec.

Open Scope N_scope.

(** [str.encode()]: UTF-8, strict.  A lone surrogate raises
    [UnicodeEncodeError], here [None]. *)
Definition encode_char (c : char) : option bytes :=
  if c <? 128 then Some [c]
  else if c <? 2048 then
    Some [192 + c / 64; 128 + c mod 64]
  else if c <? 65536 then
    if (55296 <=? c) && (c <=? 57343) then None
    else Some [224 + c / 4096; 128 + (c / 64) mod 64; 128 + c mod 64]
  else if c <? 1114112 then
    Some [240 + c / 262144; 128 + (c / 4096) mod 64;
          128 + (c / 64) mod 64; 128 + c mod 64]
  else None.

Fixpoint encode (s : str) : option bytes :=
  match s with
  | [] => Some []
  | c :: s' =>
      match encode_char c, encode s' with
      | Some b, Some bs => Some (b ++ bs)
      | _, _ => None
      end
  end.

(** Lower-case hexadecimal, two digits per byte ([hexdigest]). *)
Definition hexdigit (n : N) : char :=
  if n <? 10 then 48 + n else 87 + n.

Definition hex_of_bytes (b : bytes) : str :=
  flat_map (fun x => [hexdigit (x / 16); hexdigit (x mod 16)]) b.

(** Value of a hexadecimal digit, either case. *)
Definition hexval (c : char) : option N :=
  if (48 <=? c) && (c <=? 57) then Some (c - 48)
  else if (97 <=? c) && (c <=? 102) then Some (c - 87)
  else if (65 <=? c) && (c <=? 70) then Some (c - 55)
  else None.

(** ASCII white space, skipped by [bytes.fromhex] between bytes. *)
Definition is_ascii_space (c : char) : bool :=
  ((9 <=? c) && (c <=? 13)) || (c =? 32).

(** [bytes.fromhex(s)]: two hexadecimal digits per byte, ASCII white
    space skipped before a byte; anything else raises [ValueError], here
    [None]. *)
Fixpoint fromhex (s : str) : option bytes :=
  match s with
  | [] => Some []
  | c :: s' =>
      if is_ascii_space c then fromhex s'
      else
        match hexval c, s' with
        | Some hi, d :: s'' =>
            match hexval d with
            | Some lo =>
                match fromhex s'' with
                | Some r => Some (16 * hi + lo :: r)
                | None => None
                end
            | None => None
            end
        | _, _ => None
        end
  end.

(** [base64.b64encode(data).decode()] *)
Definition b64char (i : N) : char :=
  if i <? 26 then 65 + i
  else if i <? 52 then 71 + i
  else if i <? 62 then i - 4
  else if i =? 62 then 43
  else 47.

Definition pad : char := 61.

Fixpoint b64encode (data : bytes) : str :=
  match data with
  | [] => []
  | [a] => [b64char (a / 4); b64char ((a mod 4) * 16); pad; pad]
  | [a; b] =>
      [b64char (a / 4); b64char ((a mod 4) * 16 + b / 16);
       b64char ((b mod 16) * 4); pad]
  | a :: b :: c :: r =>
      b64char (a / 4) :: b64char ((a mod 4) * 16 + b / 16)
      :: b64char ((b mod 16) * 4 + c / 64) :: b64char (c mod 64)
      :: b64encode r
  end.

End Codec.

(** ** MD5 ([hashlib.md5]), on 32-bit words with explicit wrap-around *)

Module MD5.

Open Scope N_scope.

Definition w32 (x : N) : N := x mod 4294967296.
Definition add32 (a b : N) : N := w32 (a + b).
Definition not32 (x : N) : N := N.lxor (w32 x) 4294967295.
Definition rotl32 (x n : N) : N :=
  w32 (N.lor (N.shiftl (w32 x) n) (N.shiftr (w32 x) (32 - n))).

Definition K : list N :=
  [3614090360; 3905402710; 606105819; 3250441966; 4118548399; 1200080426;
   2821735955; 4249261313; 1770035416; 2336552879; 4294925233; 2304563134;
   1804603682; 4254626195; 2792965006; 1236535329; 4129170786; 3225465664;
   643717713; 3921069994; 3593408605; 38016083; 3634488961; 3889429448;
   568446438; 3275163606; 4107603335; 1163531501; 2850285829; 4243563512;
   1735328473; 2368359562; 4294588738; 2272392833; 1839030562; 4259657740;
   2763975236; 1272893353; 4139469664; 3200236656; 681279174; 3936430074;
   3572445317; 76029189; 3654602809; 3873151461; 530742520; 3299628645;
   4096336452; 1126891415; 2878612391; 4237533241; 1700485571; 2399980690;
   4293915773; 2240044497; 1873313359; 4264355552; 2734768916; 1309151649;
   4149444226; 3174756917; 718787259; 3951481745].

Definition shifts : list N :=
  [7; 12; 17; 22; 7; 12; 17; 22; 7; 12; 17; 22; 7; 12; 17; 22;
   5; 9; 14; 20; 5; 9; 14; 20; 5; 9; 14; 20; 5; 9; 14; 20;
   4; 11; 16; 23; 4; 11; 16; 23; 4; 11; 16; 23; 4; 11; 16; 23;
   6; 10; 15; 21; 6; 10; 15; 21; 6; 10; 15; 21; 6; 10; 15; 21].

Definition le_bytes (n : nat) (x : N) : bytes :=
  map (fun i => (x / 2 ^ (8 * N.of_nat i)) mod 256) (seq 0 n).

Fixpoint le_word (b : bytes) : N :=
  match b with
  | [] => 0
  | x :: r => x + 256 * le_word r
  end.

Definition padding (msg : bytes) : bytes :=
  let len := N.of_nat (List.length msg) in
  msg ++ [128] ++ repeat 0 (N.to_nat ((119 - len mod 64) mod 64))
      ++ le_bytes 8 ((8 * len) mod 2 ^ 64).

Fixpoint groups (size count : nat) (l : bytes) : list bytes :=
  match count with
  | O => []
  | S k => firstn size l :: groups size k (skipn size l)
  end.

Definition state := (N * N * N * N)%type.

Definition round (M : list N) (st : state) (i : N) : state :=
  let '(a, b, c, d) := st in
  let '(f, g) :=
    if i <? 16 then (N.lor (N.land b c) (N.land (not32 b) d), i)
    else if i <? 32 then
      (N.lor (N.land d b) (N.land (not32 d) c), (5 * i + 1) mod 16)
    else if i <? 48 then (N.lxor (N.lxor b c) d, (3 * i + 5) mod 16)
    else (N.lxor c (N.lor b (not32 d)), (7 * i) mod 16) in
  let x :=
    add32 (add32 (add32 f a) (nth (N.to_nat i) K 0)) (nth (N.to_nat g) M 0) in
  (d, add32 b (rotl32 x (nth (N.to_nat i) shifts 0)), b, c).

Definition compress (st : state) (chunk : bytes) : state :=
  let M := map le_word (groups 4 16 chunk) in
  let '(a, b, c, d) := st in
  let '(a', b', c', d') :=
    fold_left (round M) (map N.of_nat (seq 0 64)) st in
  (add32 a a', add32 b b', add32 c c', add32 d d').

Definition init : state := (1732584193, 4023233417, 2562383102, 271733878).

Definition digest (msg : bytes) : bytes :=
  let p := padding msg in
  let '(a, b, c, d) :=
    fold_left compress (groups 64 (Nat.div (List.length p) 64) p) init in
  le_bytes 4 a ++ le_bytes 4 b ++ le_bytes 4 c ++ le_bytes 4 d.

Definition hexdigest (msg : bytes) : str := Codec.hex_of_bytes (digest msg).

End MD5.

(** ** Python values that reach the program

    Widget strings, [None], and whatever [response.json()] parses. *)

Inductive pyfloat : Type :=
| FZero (neg : bool)
| FFinite (neg : bool) (m : positive) (e : Z)
| FInf (neg : bool)
| FNan.

#[warnings="-register-all"] Inductive pyval : Type :=
| PNone
| PBool (b : bool)
| PInt (z : Z)
| PFloat (f : pyfloat)
| PStr (s : str)
| PList (l : list pyval)
| PDict (d : list (str * pyval)).

Inductive exn : Type :=
| RequestException
| TypeError
| AttributeError
| KeyError
| ValueError
| OSError
| UnicodeEncodeError
| DownloadError.

Definition is_RequestException (e : exn) : bool :=
  match e with
  | RequestException => true
  | _ => false
  end.

Definition any_Exception (e : exn) : bool := true.

(** Truth value, as [if v:] tests it. *)
Definition truthy (v : pyval) : bool :=
  match v with
  | PNone => false
  | PBool b => b
  | PInt z => negb (Z.eqb z 0)
  | PFloat (FZero _) => false
  | PFloat _ => true
  | PStr s => str_truthy s
  | PList l => match l with [] => false | _ => true end
  | PDict d => match d with [] => false | _ => true end
  end.

Fixpoint lookup {A : Type} (k : str) (d : list (str * A)) : option A :=
  match d with
  | [] => None
  | (k', v) :: d' => if str_eqb k k' then Some v else lookup k d'
  end.

Definition is_str (k : str) (v : pyval) : bool :=
  match v with
  | PStr s => str_eqb k s
  | _ => false
  end.

(** What [json.dumps(v, allow_nan=False)] accepts, the call [requests]
    makes on a [json=] body: every parsed value but NaN and the two
    infinities, wherever they stand. *)
Fixpoint json_serialisable (v : pyval) : bool :=
  match v with
  | PFloat (FInf _) | PFloat FNan => false
  | PList l => forallb json_serialisable l
  | PDict d => forallb (fun e => let '(_, x) := e in json_serialisable x) d
  | _ => true
  end.

(** ** The generation request (music.py, lines 86-100) *)

Module Payload.

Record settings : Type := {
  sample_rate : Z;
  bitrate : Z;
  format : str
}.

Record t : Type := {
  refer_voice : pyval;
  refer_instrumental : pyval;
  lyrics : str;
  model : str;
  stream : bool;
  audio_setting : settings
}.

End Payload.

(** The two ids are the only fields of the request that can hold a value
    [json.dumps] refuses: the others are strings, a boolean and integers. *)
Definition payload_serialisable (p : Payload.t) : bool :=
  json_serialisable (Payload.refer_voice p)
  && json_serialisable (Payload.refer_instrumental p).

(** ** What the program does to the outside, and what it shows *)

Inductive message : Type :=
| ErrorDownloading (e : exn)
| ErrorUploading (purpose : str) (e : exn)
| LyricsRequired
| ErrorConverting (e : exn)
| AudioDataNotFound
| ErrorGenerating (e : exn)
| FailedUploadInstrumental
| FailedDownloadInstrumental
| FailedGenerateCover
| IdsConfirmed
| ObtainedVoiceId (v : pyval)
| ObtainedInstrumentalId (v : pyval)
| CoverGenerated.

Inductive body : Type :=
| UploadForm (file_path purpose : str)
| GenerationJson (payload : Payload.t).

Inductive event : Type :=
| YdlDownload (url outtmpl : str)
| OsRename (src dst : str)
| HttpPost (url authorization : str) (b : body) (timeout : Z)
| TempFile (path : str) (data : bytes)
| StError (m : message)
| StSuccess (m : message)
| StAudio (path format : str)
| StMarkdown (html : str).

Definition is_st_element (ev : event) : bool :=
  match ev with
  | StError _ | StSuccess _ | StAudio _ _ | StMarkdown _ => true
  | _ => false
  end.

(** ** State: [st.session_state], the [st.cache_data] store, temp files *)

(** A key of [st.session_state] is absent ([None]) until [main] sets it. *)
Record session_state : Type := {
  step : option Z;
  voice_id : option pyval;
  instrumental_id : option pyval;
  lyrics : option str
}.

Definition fresh_session : session_state :=
  {| step := None; voice_id := None; instrumental_id := None;
     lyrics := None |}.

Definition set_step (z : Z) (s : session_state) : session_state :=
  {| step := Some z; voice_id := voice_id s;
     instrumental_id := instrumental_id s; lyrics := lyrics s |}.

Definition set_voice_id (v : pyval) (s : session_state) : session_state :=
  {| step := step s; voice_id := Some v;
     instrumental_id := instrumental_id s; lyrics := lyrics s |}.

Definition set_instrumental_id (v : pyval) (s : session_state)
  : session_state :=
  {| step := step s; voice_id := voice_id s;
     instrumental_id := Some v; lyrics := lyrics s |}.

Definition set_lyrics (l : str) (s : session_state) : session_state :=
  {| step := step s; voice_id := voice_id s;
     instrumental_id := instrumental_id s; lyrics := Some l |}.

(** One entry of the [st.cache_data] store: the returned value and the
    [st] elements the call showed, replayed on a hit. *)
Definition cache_entry : Type := (option str * list event)%type.

Record app_state : Type := {
  session : session_state;
  cache : list (str * (str * cache_entry));
  files : list (str * bytes)
}.

Definition with_session (f : session_state -> session_state) (a : app_state)
  : app_state :=
  {| session := f (session a); cache := cache a; files := files a |}.

Definition lookup2 {A : Type} (k1 k2 : str) (c : list (str * (str * A)))
  : option A :=
  match find (fun e => str_eqb k1 (fst e) && str_eqb k2 (fst (snd e))) c with
  | Some e => Some (snd (snd e))
  | None => None
  end.

(** ** What the outside answers during one run of the script *)

Inductive ydl_result : Type :=
| YdlRaised (e : exn)
| YdlFile (name : str).

(** [requests.post] followed by [raise_for_status] and [json()]: a
    [RequestException] (connection, timeout, status, undecodable body) or
    the parsed body. *)
Inductive http_result : Type :=
| HttpFailed
| HttpJson (v : pyval).

Record world : Type := {
  API_KEY : option str;
  ydl_prepare_filename : str -> str -> ydl_result;
  os_rename_result : str -> str -> option exn;
  open_result : str -> option exn;
  upload_result : str -> str -> http_result;
  generation_result : Payload.t -> http_result;
  tmp_stem : str
}.

(** ** The monad: state, trace of events, Python exceptions *)

Inductive result (A : Type) : Type :=
| Ok (a : A)
| Raise (e : exn).

Arguments Ok {A} a.
Arguments Raise {A} e.

Definition M (A : Type) : Type :=
  app_state -> result A * app_state * list event.

Definition ret {A : Type} (a : A) : M A := fun s => (Ok a, s, []).

Definition bind {A B : Type} (m : M A) (f : A -> M B) : M B :=
  fun s =>
    match m s with
    | (Ok a, s', t) =>
        match f a s' with
        | (r, s'', t') => (r, s'', t ++ t')
        end
    | (Raise e, s', t) => (Raise e, s', t)
    end.

Definition raise {A : Type} (e : exn) : M A := fun s => (Raise e, s, []).

Definition emit (ev : event) : M unit := fun s => (Ok tt, s, [ev]).

Definition get : M app_state := fun s => (Ok s, s, []).

Definition modify (f : app_state -> app_state) : M unit :=
  fun s => (Ok tt, f s, []).

(** [try: m  except E as e: h e], with [catches] deciding [E]. *)
Definition try_except {A : Type} (m : M A) (catches : exn -> bool)
  (h : exn -> M A) : M A :=
  fun s =>
    match m s with
    | (Raise e, s', t) =>
        if catches e
        then match h e s' with
             | (r, s'', t') => (r, s'', t ++ t')
             end
        else (Raise e, s', t)
    | r => r
    end.

Declare Scope py_scope.
Delimit Scope py_scope with py.
Notation "x <- m ;; k" := (bind m (fun x => k))
  (at level 61, m at next level, right associativity) : py_scope.
Notation "m ;; k" := (bind m (fun _ => k))
  (at level 61, right associativity) : py_scope.
Open Scope py_scope.

Definition when (b : bool) (m : M unit) : M unit :=
  if b then m else ret tt.

Definition or_raise (o : option exn) : M unit :=
  match o with
  | Some e => raise e
  | None => ret tt
  end.

(** ** Python operations on parsed values *)

(** [key in v] *)
Definition py_in (key : str) (v : pyval) : M bool :=
  match v with
  | PDict d => ret (existsb (fun e => str_eqb key (fst e)) d)
  | PList l => ret (existsb (is_str key) l)
  | PStr s => ret (contains key s)
  | _ => raise TypeError
  end.

(** [v[key]] for a string key *)
Definition subscript (v : pyval) (key : str) : M pyval :=
  match v with
  | PDict d =>
      match lookup key d with
      | Some x => ret x
      | None => raise KeyError
      end
  | _ => raise TypeError
  end.

(** [v.get(key)] *)
Definition dict_get (v : pyval) (key : str) : M pyval :=
  match v with
  | PDict d =>
      match lookup key d with
      | Some x => ret x
      | None => ret PNone
      end
  | _ => raise AttributeError
  end.

(** [bytes.fromhex(v)] *)
Definition bytes_fromhex (v : pyval) : M bytes :=
  match v with
  | PStr s =>
      match Codec.fromhex s with
      | Some b => ret b
      | None => raise ValueError
      end
  | _ => raise TypeError
  end.

(** ** Configuration (music.py, lines 16-18) *)

Definition UPLOAD_API_URL : str :=
  py "https://api.minimax.chat/v1/music_upload".

Definition MUSIC_GENERATION_API_URL : str :=
  py "https://api.minimax.chat/v1/music_generation".

(** The value of the [Authorization] header built in [__init__].  The key
    is taken to be text a header line can carry, as the ASCII tokens the
    service issues are: [requests] and [http.client] refuse a header with
    a line break or a code point beyond Latin-1 before anything is sent. *)
Definition authorization (w : world) : str :=
  py "Bearer " ++
  match API_KEY w with
  | Some k => k
  | None => py "None"
  end.

(** ** download_audio_from_youtube (music.py, lines 24-54) *)

(** The file name after line 42: yt-dlp's prepared name with the two
    extensions replaced. *)
Definition prepared_filename (name : str) : str :=
  replace (py ".m4a") (py ".mp3") (replace (py ".webm") (py ".mp3") name).

(** Lines 45-49: the name a long file name is replaced by. *)
Definition hashed_filename (purpose filename : str) : option str :=
  match Codec.encode filename with
  | Some b => Some (purpose ++ py "_" ++ MD5.hexdigest b ++ py ".mp3")
  | None => None
  end.

Definition download_body (w : world) (url purpose : str) : M (option str) :=
  try_except
    (let outtmpl := purpose ++ py "_%(title).50s.%(ext)s" in
     emit (YdlDownload url outtmpl) ;;
     match ydl_prepare_filename w url outtmpl with
     | YdlRaised e => raise e
     | YdlFile name =>
         let filename := prepared_filename name in
         if (200 <? List.length filename)%nat then
           match hashed_filename purpose filename with
           | None => raise UnicodeEncodeError
           | Some new_filename =>
               emit (OsRename filename new_filename) ;;
               or_raise (os_rename_result w filename new_filename) ;;
               ret (Some new_filename)
           end
         else ret (Some filename)
     end)
    any_Exception
    (fun e => emit (StError (ErrorDownloading e)) ;; ret None).

(** The function as [main] calls it, behind [@st.cache_data]: a call with
    arguments seen before returns the stored value and replays the [st]
    elements of the first call. *)
Definition download_audio_from_youtube (w : world) (url purpose : str)
  : M (option str) :=
  fun s =>
    match lookup2 url purpose (cache s) with
    | Some (value, shown) => (Ok value, s, shown)
    | None =>
        match download_body w url purpose s with
        | (Ok value, s', t) =>
            (Ok value,
             {| session := session s';
                cache := (url, (purpose, (value, filter is_st_element t)))
                         :: cache s';
                files := files s' |},
             t)
        | r => r
        end
    end.

(** ** MusicProcessor (music.py, lines 56-117) *)

Definition upload_audio (w : world) (file_path purpose : str) : M pyval :=
  try_except
    (or_raise (open_result w file_path) ;;
     emit (HttpPost UPLOAD_API_URL (authorization w)
             (UploadForm file_path purpose) 30) ;;
     match upload_result w file_path purpose with
     | HttpFailed => raise RequestException
     | HttpJson result => ret result
     end)
    is_RequestException
    (fun e => emit (StError (ErrorUploading purpose e)) ;; ret PNone).

Definition default_audio_setting : Payload.settings :=
  {| Payload.sample_rate := 44100;
     Payload.bitrate := 256000;
     Payload.format := py "mp3" |}.

(** Line 102: [requests.post(json=payload)] serialises the payload with
    [allow_nan=False] before anything is sent.  An id that holds NaN or an
    infinity (the parsed answer of an upload may) makes it raise
    [InvalidJSONError], a [RequestException]: no request goes out and the
    handler of line 115 reports it. *)
Definition generate_music (w : world) (refer_voice refer_instrumental : pyval)
  (lyrics : str) (model : str) (stream : bool)
  (audio_setting : option Payload.settings) : M (option bytes) :=
  try_except
    (if negb (str_truthy lyrics) then
       emit (StError LyricsRequired) ;; ret None
     else
       let audio_setting :=
         match audio_setting with
         | None => default_audio_setting
         | Some a => a
         end in
       let payload :=
         {| Payload.refer_voice := refer_voice;
            Payload.refer_instrumental := refer_instrumental;
            Payload.lyrics := lyrics;
            Payload.model := model;
            Payload.stream := stream;
            Payload.audio_setting := audio_setting |} in
       if negb (payload_serialisable payload) then raise RequestException
       else
       emit (HttpPost MUSIC_GENERATION_API_URL (authorization w)
               (GenerationJson payload) 60) ;;
       match generation_result w payload with
       | HttpFailed => raise RequestException
       | HttpJson result =>
           has_data <- py_in (py "data") result ;;
           has_audio <-
             (if has_data then
                data <- subscript result (py "data") ;;
                py_in (py "audio") data
              else ret false) ;;
           audio <-
             (if has_audio then
                data <- subscript result (py "data") ;;
                audio <- subscript data (py "audio") ;;
                ret (if truthy audio then Some audio else None)
              else ret None) ;;
           match audio with
           | Some audio_data =>
               try_except
                 (audio_bytes <- bytes_fromhex audio_data ;;
                  ret (Some audio_bytes))
                 any_Exception
                 (fun e => emit (StError (ErrorConverting e)) ;; ret None)
           | None => emit (StError AudioDataNotFound) ;; ret None
           end
       end)
    is_RequestException
    (fun e => emit (StError (ErrorGenerating e)) ;; ret None).

(** ** get_binary_file_downloader_html (music.py, lines 127-135) *)

(** [os.path.basename]: what follows the last slash. *)
Fixpoint basename (path : str) : str :=
  match path with
  | [] => []
  | c :: p =>
      if existsb (char_eqb 47) p then basename p
      else if char_eqb c 47 then p
      else path
  end.

Definition href_of (bin_str name file_label : str) : str :=
  py "<a href=" ++ [dquote] ++ py "data:audio/mp3;base64," ++ bin_str
  ++ [dquote] ++ py " download=" ++ [dquote] ++ name ++ [dquote]
  ++ py ">Download " ++ file_label ++ py "</a>".

Definition get_binary_file_downloader_html (bin_file file_label : str)
  : M str :=
  s <- get ;;
  match lookup bin_file (files s) with
  | None => raise OSError
  | Some data =>
      let bin_str := Codec.b64encode data in
      ret (href_of bin_str (basename bin_file) file_label)
  end.

(** ** The widgets of one script run

    Streamlit reruns the script on every interaction; [st.button] is true
    only in the run its own click started, so at most one button is down
    in a run.  A text widget the user has not touched returns the value
    given as default. *)

Inductive button : Type :=
| ConfirmIDs
| ExtractVocals
| NextStep
| UploadInstrumental
| GenerateAICover.

Definition button_eqb (a b : button) : bool :=
  match a, b with
  | ConfirmIDs, ConfirmIDs
  | ExtractVocals, ExtractVocals
  | NextStep, NextStep
  | UploadInstrumental, UploadInstrumental
  | GenerateAICover, GenerateAICover => true
  | _, _ => false
  end.

Inductive balance : Type :=
| BalanceLeft
| BalanceCenter
| BalanceRight.

Inductive audio_format : Type :=
| mp3
| wav.

Definition format_name (f : audio_format) : str :=
  match f with
  | mp3 => py "mp3"
  | wav => py "wav"
  end.

Record widgets : Type := {
  clicked : option button;
  use_manual_ids : bool;
  voice_id_text : option str;
  instrumental_id_text : option str;
  youtube_url_1 : option str;
  youtube_url_2 : option str;
  lyrics_text : option str;
  mixer_volume : Z;
  mixer_balance : balance;
  output_format : audio_format
}.

Definition st_button (ui : widgets) (b : button) : bool :=
  match clicked ui with
  | Some c => button_eqb c b
  | None => false
  end.

Definition st_text (entered : option str) (value : str) : str :=
  match entered with
  | Some s => s
  | None => value
  end.

Definition default_lyrics : str :=
  py "Walking down the line" ++ [nl] ++
  py "I bumped right into you " ++ [nl] ++
  py "Could feel it from a mile " ++ [nl] ++
  py "And I know you feel it too".

(** ** main (music.py, lines 138-241): one run of the script *)

(** Reading an attribute of [st.session_state] that is not there raises. *)
Definition attr {A : Type} (field : session_state -> option A) : M A :=
  s <- get ;;
  match field (session s) with
  | Some v => ret v
  | None => raise AttributeError
  end.

Definition init_session (s : session_state) : session_state :=
  {| step := match step s with Some z => Some z | None => Some 1%Z end;
     voice_id :=
       match voice_id s with Some v => Some v | None => Some PNone end;
     instrumental_id :=
       match instrumental_id s with Some v => Some v | None => Some PNone end;
     lyrics := match lyrics s with Some l => Some l | None => Some [] end |}.

Definition next_step : M unit :=
  z <- attr step ;;
  modify (with_session (set_step (z + 1))).

Definition step1 (w : world) (ui : widgets) : M unit :=
  (if use_manual_ids ui then
     let voice_id := st_text (voice_id_text ui)
                       (py "vocal-2024101206134524-2988") in
     let instrumental_id := st_text (instrumental_id_text ui)
                              (py "instrumental-2024101206134524-2973") in
     when (st_button ui ConfirmIDs)
       (modify (with_session (set_voice_id (PStr voice_id))) ;;
        modify (with_session (set_instrumental_id (PStr instrumental_id))) ;;
        emit (StSuccess IdsConfirmed) ;;
        modify (with_session (set_step 3)))
   else
     let youtube_url := st_text (youtube_url_1 ui)
                          (py "https://www.youtube.com/watch?v=xxxxxx") in
     when (st_button ui ExtractVocals)
       (voice_file <- download_audio_from_youtube w youtube_url (py "voice") ;;
        match voice_file with
        | Some (c :: f) =>
            let voice_file := c :: f in
            voice_upload <- upload_audio w voice_file (py "voice") ;;
            if truthy voice_upload then
              voice_id <- dict_get voice_upload (py "voice_id") ;;
              modify (with_session (set_voice_id voice_id)) ;;
              emit (StSuccess (ObtainedVoiceId voice_id)) ;;
              modify (with_session (set_step 2))
            else ret tt
        | _ => ret tt
        end)) ;;
  when (st_button ui NextStep) next_step.

Definition step2 (w : world) (ui : widgets) : M unit :=
  let youtube_url := st_text (youtube_url_2 ui)
                       (py "https://www.youtube.com/watch?v=xxxxxxx") in
  when (st_button ui UploadInstrumental)
    (instrumental_file <-
       download_audio_from_youtube w youtube_url (py "instrumental") ;;
     match instrumental_file with
     | Some (c :: f) =>
         let instrumental_file := c :: f in
         song_upload <- upload_audio w instrumental_file (py "song") ;;
         if truthy song_upload then
           instrumental_id <- dict_get song_upload (py "instrumental_id") ;;
           modify (with_session (set_instrumental_id instrumental_id)) ;;
           emit (StSuccess (ObtainedInstrumentalId instrumental_id))
         else emit (StError FailedUploadInstrumental)
     | _ => emit (StError FailedDownloadInstrumental)
     end) ;;
  when (st_button ui NextStep) next_step.

Definition step3 (w : world) (ui : widgets) : M unit :=
  stored <- attr lyrics ;;
  let lyrics :=
    st_text (lyrics_text ui)
      (if str_truthy stored then stored else default_lyrics) in
  let mixer_volume := mixer_volume ui in
  let mixer_balance := mixer_balance ui in
  let output_format := format_name (output_format ui) in
  when (st_button ui GenerateAICover)
    (let formatted_lyrics := format_lyrics_for_minimax lyrics in
     refer_voice <- attr voice_id ;;
     refer_instrumental <- attr instrumental_id ;;
     audio_bytes <-
       generate_music w refer_voice refer_instrumental formatted_lyrics
         (py "music-01") false None ;;
     match audio_bytes with
     | Some (b :: bs) =>
         let audio_bytes := b :: bs in
         let tmp_path := tmp_stem w ++ py "." ++ output_format in
         emit (TempFile tmp_path audio_bytes) ;;
         modify (fun s =>
                   {| session := session s; cache := cache s;
                      files := (tmp_path, audio_bytes) :: files s |}) ;;
         emit (StAudio tmp_path (py "audio/" ++ output_format)) ;;
         href <- get_binary_file_downloader_html tmp_path (py "AI Cover") ;;
         emit (StMarkdown href) ;;
         emit (StSuccess CoverGenerated)
     | _ => emit (StError FailedGenerateCover)
     end).

Definition main (w : world) (ui : widgets) : M unit :=
  modify (with_session init_session) ;;
  current <- attr step ;;
  if (current =? 1)%Z then step1 w ui
  else if (current =? 2)%Z then step2 w ui
  else if (current =? 3)%Z then step3 w ui
  else ret tt.

(** The state, the events and the outcome of a run. *)
Definition state_after {A : Type} (r : result A * app_state * list event)
  : app_state := snd (fst r).

Definition events_of {A : Type} (r : result A * app_state * list event)
  : list event := snd r.

Definition outcome_of {A : Type} (r : result A * app_state * list event)
  : result A := fst (fst r).

(** A session: the script run once per interaction, each run in the state
    the previous one left.  A run that ends in an exception keeps the
    state it reached (Streamlit shows the traceback and goes on). *)
Fixpoint session_run (runs : list (world * widgets)) (s : app_state)
  : app_state * list event :=
  match runs with
  | [] => (s, [])
  | (w, ui) :: rest =>
      let r := main w ui s in
      let '(s', t') := session_run rest (state_after r) in
      (s', events_of r ++ t')
  end.

Definition start : app_state :=
  {| session := fresh_session; cache := []; files := [] |}.

(** A generation request went out. *)
Definition is_generation_post (ev : event) : bool :=
  match ev with
  | HttpPost _ _ (GenerationJson _) _ => true
  | _ => false
  end.

Definition generation_posts (t : list event) : list Payload.t :=
  flat_map (fun ev =>
              match ev with
              | HttpPost _ _ (GenerationJson p) _ => [p]
              | _ => []
              end) t.

(** ** Vocabulary of the statements *)

(** The lines the formatter keeps, stripped. *)
Definition kept (ls : list str) : list str := map strip (filter nonblank ls).

(** The request [generate_music] builds from its arguments. *)
Definition generation_request (rv ri : pyval) (lyr model : str)
  (stream : bool) (a : option Payload.settings) : Payload.t :=
  {| Payload.refer_voice := rv;
     Payload.refer_instrumental := ri;
     Payload.lyrics := lyr;
     Payload.model := model;
     Payload.stream := stream;
     Payload.audio_setting :=
       match a with Some x => x | None => default_audio_setting end |}.

Definition generation_post (w : world) (request : Payload.t) : event :=
  HttpPost MUSIC_GENERATION_API_URL (authorization w)
    (GenerationJson request) 60.

Definition is_st_error (ev : event) : bool :=
  match ev with
  | StError _ => true
  | _ => false
  end.

Definition add_file (path : str) (data : bytes) (s : app_state) : app_state :=
  {| session := session s; cache := cache s;
     files := (path, data) :: files s |}.

(** The values the keys hold once [main] has initialised them. *)
Definition voice_of (s : session_state) : pyval :=
  match voice_id s with Some v => v | None => PNone end.

Definition instrumental_of (s : session_state) : pyval :=
  match instrumental_id s with Some v => v | None => PNone end.

(** The text the lyrics box of step 3 returns. *)
Definition lyrics_entered (ui : widgets) (s : session_state) : str :=
  st_text (lyrics_text ui)
    (match lyrics s with
     | Some (c :: l) => c :: l
     | _ => default_lyrics
     end).

(** The URL the step-1 text box returns. *)
Definition voice_url (ui : widgets) : str :=
  st_text (youtube_url_1 ui) (py "https://www.youtube.com/watch?v=xxxxxx").

(** The URL the step-2 text box returns. *)
Definition instrumental_url (ui : widgets) : str :=
  st_text (youtube_url_2 ui) (py "https://www.youtube.com/watch?v=xxxxxxx").

(** The steps of the wizard. *)
Definition valid_step (s : session_state) : Prop :=
  step s = Some 1%Z \/ step s = Some 2%Z \/ step s = Some 3%Z.

(** [d.get(key)] on the entries of a dict. *)
Definition get_or_none (key : str) (d : list (str * pyval)) : pyval :=
  match lookup key d with
  | Some x => x
  | None => PNone
  end.

(** The output template of line 37. *)
Definition outtmpl (purpose : str) : str :=
  purpose ++ py "_%(title).50s.%(ext)s".

(** The temporary file of step 3 and what [main] shows once it is
    written. *)
Definition tmp_path (w : world) (ui : widgets) : str :=
  tmp_stem w ++ py "." ++ format_name (output_format ui).

Definition cover_shown (w : world) (ui : widgets) (audio_bytes : bytes)
  : list event :=
  [TempFile (tmp_path w ui) audio_bytes;
   StAudio (tmp_path w ui) (py "audio/" ++ format_name (output_format ui));
   StMarkdown (href_of (Codec.b64encode audio_bytes)
                 (basename (tmp_path w ui)) (py "AI Cover"));
   StSuccess CoverGenerated].

(** The request a click on "Generate AI Cover" sends. *)
Definition cover_request (ui : widgets) (s : session_state) : Payload.t :=
  generation_request (voice_of s) (instrumental_of s)
    (format_lyrics_for_minimax (lyrics_entered ui (init_session s)))
    (py "music-01") false None.

(** The two ids of the session are values [json.dumps] accepts, so that
    the request built from them can be sent. *)
Definition ids_serialisable (s : session_state) : bool :=
  json_serialisable (voice_of s) && json_serialisable (instrumental_of s).



Definition with_format (f : audio_format) (ui : widgets) : widgets :=
  {| clicked := clicked ui; use_manual_ids := use_manual_ids ui;
     voice_id_text := voice_id_text ui;
     instrumental_id_text := instrumental_id_text ui;
     youtube_url_1 := youtube_url_1 ui; youtube_url_2 := youtube_url_2 ui;
     lyrics_text := lyrics_text ui;
     mixer_volume := mixer_volume ui; mixer_balance := mixer_balance ui;
     output_format := f |}.

(** Reading the MIME type back from a download link: what stands between
    [data:] and [;base64,] in the [href]. *)
Fixpoint until (stop : char) (s : str) : str :=
  match s with
  | [] => []
  | c :: r => if char_eqb c stop then [] else c :: until stop r
  end.

Definition link_mime (html : str) : option str :=
  let opening := py "<a href=" ++ [dquote] ++ py "data:" in
  if startswith opening html then
    let rest := skipn (List.length opening) html in
    let mime := until 59 rest in
    if startswith (py ";base64,") (skipn (List.length mime) rest)
    then Some mime
    else None
  else None.

(** No entry of the [st.cache_data] store replays a generation request. *)
Definition quiet_cache (s : app_state) : Prop :=
  Forall (fun e => generation_posts (snd (snd (snd e))) = []) (cache s).

(** *** Three readings that the code does not bear out *)

(** The link's MIME type follows the format chosen in step 3. *)
Definition link_mime_follows_format : Prop :=
  forall (w : world) (ui : widgets) (s : app_state) (html : str),
    In (StMarkdown html) (events_of (main w ui s)) ->
    link_mime html = Some (py "audio/" ++ format_name (output_format ui)).

(** No generation request goes out without both ids and lyrics. *)
Definition generation_guarded : Prop :=
  forall (runs : list (world * widgets)) (request : Payload.t),
    In request (generation_posts (snd (session_run runs start))) ->
    Payload.refer_voice request <> PNone /\
    Payload.refer_instrumental request <> PNone /\
    Payload.lyrics request <> [].

(** "Extract Vocals" leaves the step at 1. *)
Definition extract_keeps_step : Prop :=
  forall (w : world) (ui : widgets) (s : app_state),
    step (init_session (session s)) = Some 1%Z ->
    use_manual_ids ui = false ->
    clicked ui = Some ExtractVocals ->
    step (session (state_after (main w ui s))) = Some 1%Z.

(** *** Sample worlds, widgets and states *)

Definition answering (ydl : ydl_result) (upload generation : http_result)
  : world :=
  {| API_KEY := Some (py "key");
     ydl_prepare_filename := fun _ _ => ydl;
     os_rename_result := fun _ _ => None;
     open_result := fun _ => None;
     upload_result := fun _ _ => upload;
     generation_result := fun _ => generation;
     tmp_stem := py "/tmp/tmpk3v1a9xq" |}.

Definition offline : world :=
  answering (YdlRaised DownloadError) HttpFailed HttpFailed.

Definition audio_response (hex : str) : http_result :=
  HttpJson (PDict [(py "data", PDict [(py "audio", PStr hex)])]).

(** The generation endpoint answers with the hex of "hello". *)
Definition hello_world : world :=
  answering (YdlRaised DownloadError) HttpFailed
    (audio_response (py "68656c6c6f")).

(** The generation endpoint answers [{"data": null}]. *)
Definition null_data_world : world :=
  answering (YdlRaised DownloadError) HttpFailed
    (HttpJson (PDict [(py "data", PNone)])).

(** The vocals are fetched and uploaded. *)
Definition vocals_world : world :=
  answering (YdlFile (py "voice_song.webm"))
    (HttpJson (PDict [(py "voice_id", PStr (py "v1"))])) HttpFailed.

(** yt-dlp prepares a name of 210 characters. *)
Definition long_name : str := py "voice_" ++ repeat 97%N 200 ++ py ".webm".

Definition long_name_world : world :=
  answering (YdlFile long_name) HttpFailed HttpFailed.

Definition click (b : button) : widgets :=
  {| clicked := Some b; use_manual_ids := false;
     voice_id_text := None; instrumental_id_text := None;
     youtube_url_1 := None; youtube_url_2 := None; lyrics_text := None;
     mixer_volume := 75; mixer_balance := BalanceLeft;
     output_format := mp3 |}.

(** A run that no button started: a text box edited, the page drawn
    anew. *)
Definition rerun : widgets :=
  {| clicked := None; use_manual_ids := false;
     voice_id_text := None; instrumental_id_text := None;
     youtube_url_1 := None; youtube_url_2 := None; lyrics_text := None;
     mixer_volume := 75; mixer_balance := BalanceLeft;
     output_format := mp3 |}.


Definition typing_ids (v i : str) (ui : widgets) : widgets :=
  {| clicked := clicked ui; use_manual_ids := true;
     voice_id_text := Some v; instrumental_id_text := Some i;
     youtube_url_1 := youtube_url_1 ui; youtube_url_2 := youtube_url_2 ui;
     lyrics_text := lyrics_text ui;
     mixer_volume := mixer_volume ui; mixer_balance := mixer_balance ui;
     output_format := output_format ui |}.

Definition in_step (n : Z) (v i : pyval) : app_state :=
  {| session := {| step := Some n; voice_id := Some v;
                   instrumental_id := Some i; lyrics := Some [] |};
     cache := []; files := [] |}.

(** *** Further vocabulary and samples *)

(** What the formatter puts between the two sentinels. *)
Definition lyrics_body (lyrics : str) : str :=
  join [nl] (kept (split nl lyrics)).

(** The file yt-dlp names cannot be opened. *)
Definition missing_file_world : world :=
  {| API_KEY := Some (py "key");
     ydl_prepare_filename := fun _ _ => YdlFile (py "voice_song.opus");
     os_rename_result := fun _ _ => None;
     open_result := fun _ => Some OSError;
     upload_result := fun _ _ =>
       HttpJson (PDict [(py "voice_id", PStr (py "v1"))]);
     generation_result := fun _ => HttpFailed;
     tmp_stem := py "/tmp/tmpk3v1a9xq" |}.

(** The instrumental is fetched and uploaded. *)
Definition instrumental_world : world :=
  answering (YdlFile (py "instrumental_song.m4a"))
    (HttpJson (PDict [(py "instrumental_id", PStr (py "i1"))])) HttpFailed.

(** The generation endpoint answers with white space, or with letters that
    are no hexadecimal digits, under data.audio. *)
Definition blank_hex_world : world :=
  answering (YdlRaised DownloadError) HttpFailed (audio_response (py "  ")).

Definition bad_hex_world : world :=
  answering (YdlRaised DownloadError) HttpFailed (audio_response (py "68zz")).

(** The upload answers [{"voice_id": NaN}], which [response.json()]
    parses; the generation endpoint would answer with the hex of "hello". *)
Definition nan_id_world : world :=
  answering (YdlFile (py "voice_song.webm"))
    (HttpJson (PDict [(py "voice_id", PFloat FNan)]))
    (audio_response (py "68656c6c6f")).

Definition is_outside_call (ev : event) : bool :=
  match ev with
  | YdlDownload _ _ | OsRename _ _ | HttpPost _ _ _ _ | TempFile _ _ => true
  | _ => false
  end.

(** A line that formatting keeps as it is. *)
Definition settled (l : str) : Prop :=
  ~ In nl l /\ l <> [] /\ lstrip l = l /\ rstrip l = l.

(** [q] appended to the last of the lines, or alone when there is none. *)
Fixpoint append_last (q : str) (ls : list str) : list str :=
  match ls with
  | [] => [q]
  | [l] => [l ++ q]
  | l :: r => l :: append_last q r
  end.

Definition prepend_first (p : str) (ls : list str) : list str :=
  match ls with
  | [] => []
  | l :: r => (p ++ l) :: r
  end.

(** yt-dlp prepares a long name with a lone surrogate in it. *)
Definition surrogate_name : str :=
  py "voice_" ++ repeat 97%N 200 ++ [56320%N] ++ py ".mp3".

Definition surrogate_world : world :=
  answering (YdlFile surrogate_name) HttpFailed HttpFailed.

(** * Properties *)

(** ** The codecs on known values *)

Example md5_of_empty :
  MD5.hexdigest [] = py "d41d8cd98f00b204e9800998ecf8427e".
Proof. vm_compute. reflexivity. Qed.

Example md5_of_abc :
  MD5.hexdigest (py "abc") = py "900150983cd24fb0d6963f7d28e17f72".
Proof. vm_compute. reflexivity. Qed.

Example md5_of_two_blocks :
  MD5.hexdigest
    (py "12345678901234567890123456789012345678901234567890123456789012345678901234567890")
  = py "57edf4a22be3c955ac49da2e2107b67a".
Proof. vm_compute. reflexivity. Qed.

Example b64encode_hello : Codec.b64encode (py "hello") = py "aGVsbG8=".
Proof. reflexivity. Qed.

Example fromhex_hello : Codec.fromhex (py "68656c6c6f") = Some (py "hello").
Proof. reflexivity. Qed.

Example fromhex_skips_space :
  Codec.fromhex (py " 68 65" ++ [nl]) = Some (py "he").
Proof. reflexivity. Qed.

Example fromhex_odd : Codec.fromhex (py "abc") = None.
Proof. reflexivity. Qed.

Example encode_beyond_ascii :
  Codec.encode [233; 8364; 128512]
  = Some [195; 169; 226; 130; 172; 240; 159; 152; 128].
Proof. reflexivity. Qed.

Example encode_lone_surrogate : Codec.encode [97; 55296] = None.
Proof. reflexivity. Qed.

Example replace_extensions :
  prepared_filename (py "voice_a.webm.m4a") = py "voice_a.mp3.mp3".
Proof. reflexivity. Qed.

Example split_keeps_empty_pieces :
  split nl (py "a" ++ [nl; nl] ++ py "b" ++ [nl])
  = [py "a"; []; py "b"; []].
Proof. reflexivity. Qed.

Example strip_unicode_space : strip ([160; 8195] ++ py " a b" ++ [9; 31]) = py "a b".
Proof. reflexivity. Qed.

(** ** Facts about strip, split and join *)

Lemma lstrip_snoc_nonspace (a : str) (c : char) :
  isspace c = false -> lstrip (a ++ [c]) = lstrip a ++ [c].
Proof.
  intros Hc. induction a as [|x a IH]; simpl.
  - now rewrite Hc.
  - destruct (isspace x); [exact IH | reflexivity].
Qed.

Lemma rstrip_snoc_space (a : str) (c : char) :
  isspace c = true -> rstrip (a ++ [c]) = rstrip a.
Proof.
  intros Hc. unfold rstrip. rewrite rev_app_distr. simpl. now rewrite Hc.
Qed.

Lemma rstrip_snoc_nonspace (a : str) (c : char) :
  isspace c = false -> rstrip (a ++ [c]) = a ++ [c].
Proof.
  intros Hc. unfold rstrip. rewrite rev_app_distr. simpl. rewrite Hc.
  simpl. now rewrite rev_involutive.
Qed.

Lemma rstrip_cons_nonspace (c : char) (z : str) :
  isspace c = false -> rstrip (c :: z) = c :: rstrip z.
Proof.
  intros Hc. unfold rstrip. simpl.
  rewrite lstrip_snoc_nonspace by assumption.
  now rewrite rev_app_distr.
Qed.

Lemma lstrip_idem (s : str) : lstrip (lstrip s) = lstrip s.
Proof.
  induction s as [|c s IH]; simpl; [reflexivity|].
  destruct (isspace c) eqn:E; [exact IH|]. simpl. now rewrite E.
Qed.

Lemma lstrip_head (s : str) :
  lstrip s = [] \/ exists c z, lstrip s = c :: z /\ isspace c = false.
Proof.
  induction s as [|c s IH]; simpl; [now left|].
  destruct (isspace c) eqn:E; [exact IH|]. right. now exists c, s.
Qed.

Lemma strip_cons_space (c : char) (l : str) :
  isspace c = true -> strip (c :: l) = strip l.
Proof. intros Hc. unfold strip. simpl. now rewrite Hc. Qed.

Lemma strip_snoc_space (l : str) (c : char) :
  isspace c = true -> strip (l ++ [c]) = strip l.
Proof.
  intros Hc. unfold strip. induction l as [|x l IH]; simpl.
  - now rewrite Hc.
  - destruct (isspace x) eqn:E; [exact IH|].
    change (x :: l ++ [c]) with ((x :: l) ++ [c]).
    now apply rstrip_snoc_space.
Qed.

Lemma strip_idem (l : str) : strip (strip l) = strip l.
Proof.
  unfold strip.
  assert (Hl : lstrip (rstrip (lstrip l)) = rstrip (lstrip l)).
  { destruct (lstrip_head l) as [E | (c & z & E & Hc)]; rewrite E.
    - reflexivity.
    - rewrite rstrip_cons_nonspace by assumption. simpl. now rewrite Hc. }
  rewrite Hl. unfold rstrip at 1 2. rewrite rev_involutive, lstrip_idem.
  reflexivity.
Qed.

Lemma lstrip_incl (s : str) (c : char) : In c (lstrip s) -> In c s.
Proof.
  induction s as [|x s IH]; simpl; [tauto|].
  destruct (isspace x); [right; now apply IH | simpl; tauto].
Qed.

Lemma strip_incl (s : str) (c : char) : In c (strip s) -> In c s.
Proof.
  unfold strip, rstrip. intros H. apply lstrip_incl.
  apply in_rev in H. apply lstrip_incl in H. now apply in_rev in H.
Qed.

(** *** split *)

Lemma split_not_nil (sep : char) (s : str) : split sep s <> [].
Proof.
  destruct s as [|c s]; simpl; [discriminate|].
  destruct (char_eqb c sep); [discriminate|].
  destruct (split sep s); discriminate.
Qed.

Lemma split_cons_other (sep c : char) (s : str) :
  char_eqb c sep = false ->
  split sep (c :: s) = (c :: hd [] (split sep s)) :: tl (split sep s).
Proof.
  intros H. simpl. rewrite H.
  destruct (split sep s) eqn:E; [now apply split_not_nil in E | reflexivity].
Qed.

Lemma split_app (sep : char) (a b : str) :
  split sep (a ++ b) =
  removelast (split sep a)
  ++ (last (split sep a) [] ++ hd [] (split sep b)) :: tl (split sep b).
Proof.
  induction a as [|c a IH].
  - simpl. destruct (split sep b) eqn:E; [now apply split_not_nil in E|].
    reflexivity.
  - destruct (char_eqb c sep) eqn:Hc.
    + simpl. rewrite Hc, IH.
      destruct (split sep a) eqn:E; [now apply split_not_nil in E|].
      reflexivity.
    + rewrite <- app_comm_cons, !split_cons_other, IH by assumption.
      destruct (split sep a) as [|x [|y r]] eqn:E;
        [now apply split_not_nil in E | reflexivity | reflexivity].
Qed.

Lemma split_snoc_sep (sep : char) (a : str) :
  split sep (a ++ [sep]) = split sep a ++ [[]].
Proof.
  rewrite split_app. simpl. unfold char_eqb. rewrite N.eqb_refl. simpl.
  rewrite app_nil_r.
  change (removelast (split sep a) ++ [last (split sep a) []; []])
    with (removelast (split sep a) ++ [last (split sep a) []] ++ [[]]).
  rewrite app_assoc, <- app_removelast_last by apply split_not_nil.
  reflexivity.
Qed.

Lemma split_snoc_other (sep c : char) (a : str) :
  char_eqb c sep = false ->
  split sep (a ++ [c]) =
  removelast (split sep a) ++ [last (split sep a) [] ++ [c]].
Proof.
  intros Hc. rewrite split_app. simpl. now rewrite Hc.
Qed.

Lemma split_no_sep (sep : char) (s : str) :
  Forall (fun l => ~ In sep l) (split sep s).
Proof.
  induction s as [|c s IH]; simpl.
  - constructor; [tauto | constructor].
  - destruct (char_eqb c sep) eqn:Hc.
    + constructor; [simpl; tauto | exact IH].
    + destruct (split sep s) as [|l ls]; inversion IH; subst.
      * constructor; [|constructor]. simpl. intros [->|[]].
        unfold char_eqb in Hc. now rewrite N.eqb_refl in Hc.
      * constructor; [|assumption]. simpl. intros [->|H]; [|tauto].
        unfold char_eqb in Hc. now rewrite N.eqb_refl in Hc.
Qed.

Lemma split_without_sep (sep : char) (p : str) :
  ~ In sep p -> split sep p = [p].
Proof.
  induction p as [|c p IH]; simpl; intros H; [reflexivity|].
  destruct (char_eqb c sep) eqn:Hc.
  - exfalso. apply H. left. now apply N.eqb_eq.
  - rewrite IH by tauto. reflexivity.
Qed.

Lemma split_app_sep (sep : char) (p rest : str) :
  ~ In sep p -> split sep (p ++ sep :: rest) = p :: split sep rest.
Proof.
  intros H. rewrite split_app, split_without_sep by assumption. simpl.
  unfold char_eqb. rewrite N.eqb_refl. simpl. now rewrite app_nil_r.
Qed.

Lemma split_join (sep : char) (ls : list str) :
  ls <> [] -> Forall (fun l => ~ In sep l) ls ->
  split sep (join [sep] ls) = ls.
Proof.
  induction ls as [|p ps IH]; intros Hne Hall; [congruence|].
  inversion Hall as [|? ? Hp Hps]; subst.
  destruct ps as [|q r].
  - simpl. now apply split_without_sep.
  - change (join [sep] (p :: q :: r)) with (p ++ sep :: join [sep] (q :: r)).
    rewrite split_app_sep by assumption.
    rewrite IH; [reflexivity | discriminate | assumption].
Qed.

(** ** The lyrics formatter *)

Lemma kept_app (a b : list str) : kept (a ++ b) = kept a ++ kept b.
Proof. unfold kept. now rewrite filter_app, map_app. Qed.

Lemma kept_last_space (l : str) (c : char) :
  isspace c = true -> kept [l ++ [c]] = kept [l].
Proof.
  intros Hc. unfold kept, nonblank. cbn [filter].
  rewrite strip_snoc_space by assumption.
  destruct (str_truthy (strip l)); cbn [map]; [|reflexivity].
  now rewrite strip_snoc_space by assumption.
Qed.

Lemma kept_first_space (l : str) (c : char) (ls : list str) :
  isspace c = true -> kept ((c :: l) :: ls) = kept (l :: ls).
Proof.
  intros Hc. unfold kept, nonblank. cbn [filter].
  rewrite strip_cons_space by assumption.
  destruct (str_truthy (strip l)); cbn [map];
    now rewrite ?strip_cons_space by assumption.
Qed.

Lemma kept_split_snoc_space (a : str) (c : char) :
  isspace c = true -> kept (split nl (a ++ [c])) = kept (split nl a).
Proof.
  intros Hc. destruct (char_eqb c nl) eqn:E.
  - apply N.eqb_eq in E. subst c.
    rewrite split_snoc_sep, kept_app. unfold kept at 2. simpl.
    now rewrite app_nil_r.
  - rewrite split_snoc_other by assumption.
    rewrite (app_removelast_last (l := split nl a) [])
      at 3 by apply split_not_nil.
    rewrite !kept_app. f_equal. now apply kept_last_space.
Qed.

Lemma kept_split_lstrip (s : str) :
  kept (split nl (lstrip s)) = kept (split nl s).
Proof.
  induction s as [|c s IH]; [reflexivity|].
  simpl lstrip. destruct (isspace c) eqn:Hc; [|reflexivity].
  rewrite IH. destruct (char_eqb c nl) eqn:E.
  - simpl. rewrite E. reflexivity.
  - rewrite split_cons_other by assumption.
    rewrite kept_first_space by assumption.
    destruct (split nl s) eqn:Es; [now apply split_not_nil in Es|].
    reflexivity.
Qed.

Lemma kept_split_rstrip (s : str) :
  kept (split nl (rstrip s)) = kept (split nl s).
Proof.
  induction s as [|c s IH] using rev_ind; [reflexivity|].
  destruct (isspace c) eqn:Hc.
  - rewrite rstrip_snoc_space, kept_split_snoc_space by assumption.
    exact IH.
  - now rewrite rstrip_snoc_nonspace.
Qed.

(** Stripping the whole text first does not change the lines kept. *)
Lemma kept_split_strip (s : str) :
  kept (split nl (strip s)) = kept (split nl s).
Proof.
  unfold strip. now rewrite kept_split_rstrip, kept_split_lstrip.
Qed.

Lemma format_lyrics_refines (lyrics : str) :
  format_lyrics_for_minimax lyrics = format_lyrics_spec lyrics.
Proof.
  unfold format_lyrics_for_minimax, format_lyrics_spec.
  fold (kept (split nl (strip lyrics))). fold (kept (split nl lyrics)).
  now rewrite kept_split_strip.
Qed.

Lemma kept_lines (ls : list str) :
  Forall (fun l => ~ In nl l) ls ->
  Forall (fun l => ~ In nl l /\ nonblank l = true /\ strip l = l) (kept ls).
Proof.
  induction 1 as [|l ls Hl _ IH]; [constructor|].
  unfold kept. simpl. destruct (nonblank l) eqn:E; [|exact IH].
  simpl. constructor; [|exact IH]. repeat split.
  - intros H. apply Hl. now apply strip_incl.
  - unfold nonblank. now rewrite strip_idem.
  - apply strip_idem.
Qed.

Lemma kept_nil_iff (ls : list str) :
  kept ls = [] <-> existsb nonblank ls = false.
Proof.
  unfold kept. induction ls as [|l ls IH]; simpl; [tauto|].
  destruct (nonblank l); simpl; [split; discriminate | exact IH].
Qed.


Lemma format_lyrics_cons (lyrics : str) :
  exists c l, format_lyrics_for_minimax lyrics = c :: l.
Proof. unfold format_lyrics_for_minimax. cbn. eauto. Qed.

Lemma format_lyrics_all_blank (lyrics : str) :
  has_nonblank_line lyrics = false ->
  format_lyrics_for_minimax lyrics = py "####".
Proof.
  intros Hb. rewrite format_lyrics_refines. unfold format_lyrics_spec.
  fold (kept (split nl lyrics)).
  apply kept_nil_iff in Hb. rewrite Hb. reflexivity.
Qed.

(** C6.  [format_lyrics_for_minimax] computes what the specification
    describes (lines split at newline, blank ones dropped, the others
    stripped and rejoined with newline, the whole between two "##").  For
    an input with a non-blank line the result starts and ends with "##"
    and every line between the sentinels is non-blank and stripped; for an
    input of blank lines only the result is exactly "####". *)
Theorem format_lyrics_sentinel_and_lines (lyrics : str) :
  format_lyrics_for_minimax lyrics = format_lyrics_spec lyrics /\
  (has_nonblank_line lyrics = true ->
   exists body,
     format_lyrics_for_minimax lyrics = py "##" ++ body ++ py "##" /\
     startswith (py "##") (format_lyrics_for_minimax lyrics) = true /\
     endswith (py "##") (format_lyrics_for_minimax lyrics) = true /\
     body = join [nl] (map strip (filter nonblank (split nl lyrics))) /\
     Forall (fun line => nonblank line = true /\ strip line = line)
       (split nl body)) /\
  (has_nonblank_line lyrics = false ->
   format_lyrics_for_minimax lyrics = py "####").
Proof.
  split; [apply format_lyrics_refines|]. split.
  - intros Hnb. rewrite format_lyrics_refines. unfold format_lyrics_spec.
    fold (kept (split nl lyrics)).
    exists (join [nl] (kept (split nl lyrics))).
    split; [reflexivity|]. split; [reflexivity|]. split.
    { unfold endswith. rewrite !rev_app_distr. reflexivity. }
    split; [reflexivity|].
    pose proof (kept_lines _ (split_no_sep nl lyrics)) as Hk.
    rewrite split_join.
    + eapply Forall_impl; [|exact Hk]. simpl. tauto.
    + intros E. apply kept_nil_iff in E. unfold has_nonblank_line in Hnb.
      congruence.
    + eapply Forall_impl; [|exact Hk]. simpl. tauto.
  - apply format_lyrics_all_blank.
Qed.

Lemma format_lyrics_sentinel_and_lines_witness :
  (has_nonblank_line (py " a " ++ [nl; nl] ++ py "b c" ++ [nl]) = true /\
   exists body,
     format_lyrics_for_minimax (py " a " ++ [nl; nl] ++ py "b c" ++ [nl])
     = py "##" ++ body ++ py "##" /\
     body = py "a" ++ [nl] ++ py "b c") /\
  (has_nonblank_line (py "  " ++ [nl; 9; nl]) = false /\
   format_lyrics_for_minimax (py "  " ++ [nl; 9; nl]) = py "####").
Proof.
  split; (split; [reflexivity|]).
  - destruct (proj1 (proj2 (format_lyrics_sentinel_and_lines
                              (py " a " ++ [nl; nl] ++ py "b c" ++ [nl])))
                eq_refl) as (body & E & _ & _ & Hb & _).
    exists body. split; [exact E | rewrite Hb; reflexivity].
  - apply (proj2 (proj2 (format_lyrics_sentinel_and_lines
                           (py "  " ++ [nl; 9; nl])))).
    reflexivity.
Defined.

(** ** Running the script *)

Ltac unfold_monad :=
  unfold when, next_step, attr, or_raise, bind, ret, emit, modify, get, raise,
    try_except in *.

Lemma str_eqb_refl (a : str) : str_eqb a a = true.
Proof.
  induction a as [|c a IH]; [reflexivity|]. simpl. unfold char_eqb.
  now rewrite N.eqb_refl.
Qed.

Lemma str_eqb_eq (a b : str) : str_eqb a b = true <-> a = b.
Proof.
  split; [|intros ->; apply str_eqb_refl].
  revert b. induction a as [|c a IH]; intros [|d b]; simpl;
    try discriminate; [reflexivity|].
  intros H. apply andb_prop in H. destruct H as [H1 H2].
  apply N.eqb_eq in H1. apply IH in H2. now subst.
Qed.

Lemma existsb_lookup (key : str) (d : list (str * pyval)) :
  existsb (fun e => str_eqb key (fst e)) d
  = match lookup key d with Some _ => true | None => false end.
Proof.
  induction d as [|[k v] d IH]; [reflexivity|]. simpl.
  destruct (str_eqb key k); [reflexivity | exact IH].
Qed.

(** [main] initialises the session and dispatches on the step. *)
Lemma main_eq (w : world) (ui : widgets) (s : app_state) :
  main w ui s =
  let s0 := with_session init_session s in
  match step (session s0) with
  | Some current =>
      if (current =? 1)%Z then step1 w ui s0
      else if (current =? 2)%Z then step2 w ui s0
      else if (current =? 3)%Z then step3 w ui s0
      else (Ok tt, s0, [])
  | None => (Raise AttributeError, s0, [])
  end.
Proof.
  unfold main. unfold_monad. cbv zeta.
  destruct (step (session (with_session init_session s))) as [z|];
    [|reflexivity].
  destruct (z =? 1)%Z; [now destruct (step1 _ _ _) as [[? ?] ?]|].
  destruct (z =? 2)%Z; [now destruct (step2 _ _ _) as [[? ?] ?]|].
  destruct (z =? 3)%Z; [now destruct (step3 _ _ _) as [[? ?] ?]|].
  reflexivity.
Qed.

Lemma init_session_fields (x : session_state) :
  voice_id (init_session x) = Some (voice_of x) /\
  instrumental_id (init_session x) = Some (instrumental_of x) /\
  exists l, lyrics (init_session x) = Some l.
Proof.
  unfold init_session, voice_of, instrumental_of. cbn.
  destruct (voice_id x), (instrumental_id x), (lyrics x); eauto.
Qed.

(** ** Step 1, manual ids *)

(** C4.  In step 1 with "Use manual IDs" ticked, a click on "Confirm IDs"
    sets voice_id and instrumental_id to exactly the two strings entered,
    sets the step to 3 and leaves the lyrics field as it was; the run ends
    normally and shows only the confirmation. *)
Theorem confirm_manual_ids (w : world) (ui : widgets) (s : app_state)
  (v i : str) :
  step (init_session (session s)) = Some 1%Z ->
  use_manual_ids ui = true ->
  clicked ui = Some ConfirmIDs ->
  voice_id_text ui = Some v ->
  instrumental_id_text ui = Some i ->
  let r := main w ui s in
  outcome_of r = Ok tt /\
  voice_id (session (state_after r)) = Some (PStr v) /\
  instrumental_id (session (state_after r)) = Some (PStr i) /\
  step (session (state_after r)) = Some 3%Z /\
  lyrics (session (state_after r)) = lyrics (init_session (session s)) /\
  (forall l, lyrics (session s) = Some l ->
             lyrics (session (state_after r)) = Some l) /\
  events_of r = [StSuccess IdsConfirmed].
Proof.
  intros Hstep Hman Hclick Hv Hi r. subst r. rewrite main_eq. cbv zeta.
  change (session (with_session init_session s))
    with (init_session (session s)).
  rewrite Hstep. cbn [Z.eqb Pos.eqb]. unfold step1, st_button.
  rewrite Hman, Hclick, Hv, Hi. unfold_monad. cbn.
  repeat split. intros l Hl. now rewrite Hl.
Qed.

Lemma confirm_manual_ids_witness :
  voice_id (session (state_after
                       (main offline
                          (typing_ids (py "vocal-7") (py "instrumental-9")
                             (click ConfirmIDs))
                          (in_step 1 PNone PNone))))
  = Some (PStr (py "vocal-7")) /\
  instrumental_id (session (state_after
                       (main offline
                          (typing_ids (py "vocal-7") (py "instrumental-9")
                             (click ConfirmIDs))
                          (in_step 1 PNone PNone))))
  = Some (PStr (py "instrumental-9")) /\
  step (session (state_after
                   (main offline
                      (typing_ids (py "vocal-7") (py "instrumental-9")
                         (click ConfirmIDs))
                      (in_step 1 PNone PNone))))
  = Some 3%Z.
Proof.
  destruct (confirm_manual_ids offline
              (typing_ids (py "vocal-7") (py "instrumental-9")
                 (click ConfirmIDs))
              (in_step 1 PNone PNone) (py "vocal-7") (py "instrumental-9")
              eq_refl eq_refl eq_refl eq_refl eq_refl)
    as (_ & Hv & Hi & Hs & _).
  repeat split; assumption.
Defined.

(** ** generate_music *)

Lemma generate_music_empty (w : world) (rv ri : pyval) (model : str)
  (stream : bool) (a : option Payload.settings) (s : app_state) :
  generate_music w rv ri [] model stream a s
  = (Ok None, s, [StError LyricsRequired]).
Proof. reflexivity. Qed.

Ltac posted :=
  eexists _, _; split; [reflexivity|]; split; [reflexivity|];
  simpl; try tauto; intros [H|[]]; discriminate.

Lemma payload_serialisable_ids (rv ri : pyval) (lyr model : str)
  (stream : bool) (a : option Payload.settings) :
  payload_serialisable (generation_request rv ri lyr model stream a)
  = json_serialisable rv && json_serialisable ri.
Proof. reflexivity. Qed.

(** A payload that cannot be serialised is refused before anything is
    sent: the refusal is reported and nothing is returned. *)
Lemma generate_music_refused (w : world) (rv ri : pyval) (c : char)
  (lyr model : str) (stream : bool) (a : option Payload.settings)
  (s : app_state) :
  payload_serialisable (generation_request rv ri (c :: lyr) model stream a)
  = false ->
  generate_music w rv ri (c :: lyr) model stream a s
  = (Ok None, s, [StError (ErrorGenerating RequestException)]).
Proof.
  intros Hj. unfold generate_music.
  cbn [str_truthy negb]. cbv zeta.
  unfold generation_request in Hj. rewrite Hj. reflexivity.
Qed.

(** With lyrics that are not empty and a payload that can be serialised
    the request goes out first, the state is untouched, and whatever
    follows on the trace is an error report other than the one for missing
    lyrics. *)
Lemma generate_music_posts (w : world) (rv ri : pyval) (c : char)
  (lyr model : str) (stream : bool) (a : option Payload.settings)
  (s : app_state) :
  payload_serialisable (generation_request rv ri (c :: lyr) model stream a)
  = true ->
  exists r rest,
    generate_music w rv ri (c :: lyr) model stream a s
    = (r, s,
       generation_post w
         (generation_request rv ri (c :: lyr) model stream a) :: rest)
    /\ forallb is_st_error rest = true
    /\ ~ In (StError LyricsRequired) rest.
Proof.
  intros Hj.
  unfold generate_music, generation_post.
  cbn [str_truthy negb]. cbv zeta.
  unfold generation_request in *. rewrite Hj. cbn [negb]. unfold_monad.
  destruct (generation_result w _) as [|result]; [cbn; posted|].
  unfold py_in, subscript, bytes_fromhex. unfold_monad.
  destruct result as [| | | | sr | lr | dr]; cbn; try posted.
  - destruct (contains _ sr); cbn; posted.
  - destruct (existsb _ lr); cbn; posted.
  - destruct (existsb _ dr); cbn; [|posted].
    destruct (lookup _ dr) as [data|]; cbn; [|posted].
    destruct data as [| | | | sd | ld | dd]; cbn; try posted.
    + destruct (contains _ sd); cbn; posted.
    + destruct (existsb _ ld); cbn; posted.
    + destruct (existsb _ dd); cbn; [|posted].
      destruct (lookup _ dd) as [audio|]; cbn; [|posted].
      destruct (truthy audio); cbn; [|posted].
      destruct audio as [| | | | sa | la | da]; cbn; try posted.
      destruct (Codec.fromhex sa); cbn; posted.
Qed.

(** Whatever the arguments, the call leaves the state as it found it. *)
Lemma generate_music_state (w : world) (rv ri : pyval) (lyr model : str)
  (stream : bool) (a : option Payload.settings) (s : app_state) :
  exists r t, generate_music w rv ri lyr model stream a s = (r, s, t).
Proof.
  destruct lyr as [|c lyr]; [rewrite generate_music_empty; eauto|].
  destruct (payload_serialisable
              (generation_request rv ri (c :: lyr) model stream a)) eqn:Hj.
  - destruct (generate_music_posts w rv ri c lyr model stream a s Hj)
      as (r & rest & -> & _). eauto.
  - rewrite generate_music_refused by assumption. eauto.
Qed.

(** What [generate_music] makes of a 2xx answer whose body is a JSON
    object. *)
Section Responses.

Variables (w : world) (rv ri : pyval) (c : char) (lyr model : str).
Variables (stream : bool) (a : option Payload.settings) (s : app_state).

Lemma generate_music_response (top : list (str * pyval)) :
  let request := generation_request rv ri (c :: lyr) model stream a in
  let call := generate_music w rv ri (c :: lyr) model stream a s in
  payload_serialisable request = true ->
  generation_result w request = HttpJson (PDict top) ->
  (lookup (py "data") top = None ->
   call = (Ok None, s, [generation_post w request; StError AudioDataNotFound]))
  /\
  (forall data,
     lookup (py "data") top = Some (PDict data) ->
     (lookup (py "audio") data = None ->
      call = (Ok None, s,
              [generation_post w request; StError AudioDataNotFound])) /\
     (forall hex,
        lookup (py "audio") data = Some (PStr hex) ->
        (hex = [] ->
         call = (Ok None, s,
                 [generation_post w request; StError AudioDataNotFound])) /\
        (hex <> [] -> Codec.fromhex hex = None ->
         call = (Ok None, s,
                 [generation_post w request;
                  StError (ErrorConverting ValueError)])) /\
        (forall b,
           hex <> [] -> Codec.fromhex hex = Some b ->
           call = (Ok (Some b), s, [generation_post w request])))) /\
  (forall v,
     lookup (py "data") top = Some v ->
     match v with
     | PNone | PBool _ | PInt _ | PFloat _ => True
     | _ => False
     end ->
     call = (Raise TypeError, s, [generation_post w request])).
Proof.
  intros request call Hj Hres. subst request call.
  unfold generate_music, generation_post.
  cbn [str_truthy negb]. cbv zeta.
  unfold generation_request in *. rewrite Hj, Hres. cbn [negb].
  unfold py_in, subscript, bytes_fromhex. unfold_monad.
  rewrite existsb_lookup.
  split; [|split].
  - intros ->. reflexivity.
  - intros data ->. cbv beta iota. rewrite existsb_lookup. split.
    + intros ->. reflexivity.
    + intros hex ->. cbv beta iota. split; [|split].
      * intros ->. reflexivity.
      * intros Hne Hbad. destruct hex; [congruence|].
        cbn [truthy str_truthy]. cbv beta iota. rewrite Hbad. reflexivity.
      * intros b Hne Hgood. destruct hex; [congruence|].
        cbn [truthy str_truthy]. cbv beta iota. rewrite Hgood. reflexivity.
  - intros v -> Hv. destruct v; try contradiction; reflexivity.
Qed.

End Responses.

(** The answer [{"data": {"audio": "68656c6c6f"}}] yields the five bytes
    of "hello". *)
Lemma generate_music_hello (rv ri : pyval) (c : char) (lyr model : str)
  (stream : bool) (a : option Payload.settings) (s : app_state) :
  json_serialisable rv = true ->
  json_serialisable ri = true ->
  outcome_of (generate_music hello_world rv ri (c :: lyr) model stream a s)
  = Ok (Some (py "hello")).
Proof.
  intros Hv Hi.
  assert (Hj : payload_serialisable
                 (generation_request rv ri (c :: lyr) model stream a) = true)
    by now rewrite payload_serialisable_ids, Hv, Hi.
  destruct (generate_music_response hello_world rv ri c lyr model stream a
              s _ Hj eq_refl) as (_ & H & _).
  destruct (H _ eq_refl) as (_ & H').
  destruct (H' _ eq_refl) as (_ & _ & H'').
  now rewrite (H'' (py "hello") ltac:(discriminate) eq_refl).
Qed.

(** A string with a character that is neither a hexadecimal digit nor
    ASCII white space does not decode. *)
Lemma fromhex_rejects (hex : str) (x : char) :
  In x hex -> Codec.hexval x = None -> Codec.is_ascii_space x = false ->
  Codec.fromhex hex = None.
Proof.
  revert x. induction hex as [hex IH] using (well_founded_induction
    (Wf_nat.well_founded_ltof _ (@List.length char))).
  intros x Hin Hx Hsp. destruct hex as [|c0 rest]; [destruct Hin|].
  simpl. destruct (Codec.is_ascii_space c0) eqn:Hc0.
  - destruct Hin as [->|Hin]; [congruence|].
    apply (IH rest) with x; auto. unfold Wf_nat.ltof. simpl. lia.
  - destruct (Codec.hexval c0) eqn:Hv0; [|reflexivity].
    destruct rest as [|d rest']; [reflexivity|].
    destruct (Codec.hexval d) eqn:Hd; [|reflexivity].
    destruct Hin as [->|[->|Hin]]; try congruence.
    rewrite (IH rest') with (x := x); auto.
    unfold Wf_nat.ltof. simpl. lia.
Qed.

(** C8, at the input where the code departs from it.  A 2xx answer
    [{"data": null}] has no data.audio field, yet [generate_music] neither
    reports nor returns: the membership test on [None] raises [TypeError],
    which the handler for [RequestException] lets through, and the run of
    [main] that made the call ends in that exception too.  (The ids are
    such that the request is sent at all: strings, or anything else
    [json.dumps] accepts.) *)
Theorem generate_music_null_data_raises (rv ri : pyval) (c : char)
  (lyr model : str) (stream : bool) (a : option Payload.settings)
  (s : app_state) :
  json_serialisable rv = true ->
  json_serialisable ri = true ->
  generate_music null_data_world rv ri (c :: lyr) model stream a s
  = (Raise TypeError, s,
     [generation_post null_data_world
        (generation_request rv ri (c :: lyr) model stream a)]) /\
  outcome_of (main null_data_world (click GenerateAICover)
                (in_step 3 (PStr (py "v1")) (PStr (py "i1"))))
  = Raise TypeError.
Proof.
  intros Hv Hi. split; [|vm_compute; reflexivity].
  assert (Hj : payload_serialisable
                 (generation_request rv ri (c :: lyr) model stream a) = true)
    by now rewrite payload_serialisable_ids, Hv, Hi.
  destruct (generate_music_response null_data_world rv ri c lyr model stream a
              s [(py "data", PNone)] Hj eq_refl) as (_ & _ & H).
  exact (H PNone eq_refl I).
Qed.

Lemma generate_music_null_data_raises_witness :
  generate_music null_data_world (PStr (py "v1")) (PStr (py "i1"))
    (py "##la##") (py "music-01") false None start
  = (Raise TypeError, start,
     [generation_post null_data_world
        (generation_request (PStr (py "v1")) (PStr (py "i1")) (py "##la##")
           (py "music-01") false None)]).
Proof.
  exact (proj1 (generate_music_null_data_raises (PStr (py "v1"))
                  (PStr (py "i1")) 35 (py "#la##") (py "music-01") false None
                  start eq_refl eq_refl)).
Defined.

(** ** The guard of generate_music *)

(** C1, at the input where the code departs from it: the page is loaded,
    "Next Step" is clicked twice, a rerun draws the page of step 3, and
    then "Generate AI Cover" sends a request whose two ids are [None]. *)
Lemma generation_without_ids :
  generation_posts
    (snd (session_run
            [(offline, rerun); (offline, click NextStep);
             (offline, click NextStep); (offline, rerun);
             (offline, click GenerateAICover)] start))
  = [generation_request PNone PNone
       (format_lyrics_for_minimax default_lyrics) (py "music-01") false None]
  /\ ~ generation_guarded.
Proof.
  assert (E : generation_posts
    (snd (session_run
            [(offline, rerun); (offline, click NextStep);
             (offline, click NextStep); (offline, rerun);
             (offline, click GenerateAICover)] start))
  = [generation_request PNone PNone
       (format_lyrics_for_minimax default_lyrics) (py "music-01") false None])
    by (vm_compute; reflexivity).
  split; [exact E|]. intros H.
  unfold generation_guarded in H.
  specialize (H [(offline, rerun); (offline, click NextStep);
                 (offline, click NextStep); (offline, rerun);
                 (offline, click GenerateAICover)]
                (generation_request PNone PNone
                   (format_lyrics_for_minimax default_lyrics) (py "music-01")
                   false None)).
  rewrite E in H. destruct H as [Hv _]; [left; reflexivity|].
  now apply Hv.
Qed.

(** ** Step 3: a click on "Generate AI Cover" *)

Lemma step3_generate (w : world) (ui : widgets) (s : app_state)
  (rv ri : pyval) (l : str) :
  lyrics (session s) = Some l ->
  voice_id (session s) = Some rv ->
  instrumental_id (session s) = Some ri ->
  clicked ui = Some GenerateAICover ->
  step3 w ui s =
  match generate_music w rv ri
          (format_lyrics_for_minimax (lyrics_entered ui (session s)))
          (py "music-01") false None s with
  | (Ok (Some (b :: bs)), s1, t) =>
      (Ok tt, add_file (tmp_path w ui) (b :: bs) s1,
       t ++ cover_shown w ui (b :: bs))
  | (Ok _, s1, t) => (Ok tt, s1, t ++ [StError FailedGenerateCover])
  | (Raise e, s1, t) => (Raise e, s1, t)
  end.
Proof.
  intros Hl Hv Hi Hc. unfold step3, st_button, lyrics_entered.
  unfold_monad. cbv beta. rewrite Hl, Hc. cbv beta iota.
  cbn [button_eqb]. rewrite Hv. cbv beta iota. rewrite Hi. cbv beta iota.
  replace (if str_truthy l then l else default_lyrics)
    with (match l with c :: l0 => c :: l0 | [] => default_lyrics end)
    by now destruct l.
  destruct (generate_music _ _ _ _ _ _ _ _) as [[r s1] t].
  destruct r as [[[|b bs]|]|e]; cbn [app]; try reflexivity.
  unfold get_binary_file_downloader_html. unfold_monad.
  cbn [files lookup]. rewrite str_eqb_refl. reflexivity.
Qed.

Lemma main_generate (w : world) (ui : widgets) (s : app_state) :
  step (init_session (session s)) = Some 3%Z ->
  clicked ui = Some GenerateAICover ->
  main w ui s =
  match generate_music w (voice_of (session s)) (instrumental_of (session s))
          (format_lyrics_for_minimax
             (lyrics_entered ui (init_session (session s))))
          (py "music-01") false None (with_session init_session s) with
  | (Ok (Some (b :: bs)), s1, t) =>
      (Ok tt, add_file (tmp_path w ui) (b :: bs) s1,
       t ++ cover_shown w ui (b :: bs))
  | (Ok _, s1, t) => (Ok tt, s1, t ++ [StError FailedGenerateCover])
  | (Raise e, s1, t) => (Raise e, s1, t)
  end.
Proof.
  intros Hs Hc. rewrite main_eq. cbv zeta.
  change (session (with_session init_session s))
    with (init_session (session s)).
  rewrite Hs. cbn [Z.eqb Pos.eqb].
  destruct (init_session_fields (session s)) as (Hv & Hi & l & Hl).
  now rewrite (step3_generate w ui (with_session init_session s) _ _ _
                 Hl Hv Hi Hc).
Qed.

Lemma generation_posts_app (a b : list event) :
  generation_posts (a ++ b) = generation_posts a ++ generation_posts b.
Proof. unfold generation_posts. apply flat_map_app. Qed.

Lemma generation_posts_st_errors (t : list event) :
  forallb is_st_error t = true -> generation_posts t = [].
Proof.
  induction t as [|ev t IH]; [reflexivity|]. simpl. intros H.
  apply andb_prop in H. destruct H as [H1 H2].
  destruct ev; try discriminate. simpl. now apply IH.
Qed.

Lemma st_errors_no_markdown (t : list event) (html : str) :
  forallb is_st_error t = true -> ~ In (StMarkdown html) t.
Proof.
  induction t as [|ev t IH]; simpl; [tauto|]. intros H.
  apply andb_prop in H. destruct H as [H1 H2].
  intros [E|E]; [subst ev; discriminate | now apply IH].
Qed.

(** The trace of such a run when the two ids can be serialised: the
    request first, then the error reports of [generate_music], then what
    [main] shows. *)
Lemma main_generate_events (w : world) (ui : widgets) (s : app_state) :
  step (init_session (session s)) = Some 3%Z ->
  clicked ui = Some GenerateAICover ->
  payload_serialisable (cover_request ui (session s)) = true ->
  exists reports shown,
    events_of (main w ui s) =
    generation_post w (cover_request ui (session s)) :: reports ++ shown
    /\ forallb is_st_error reports = true
    /\ ~ In (StError LyricsRequired) reports
    /\ (shown = [] \/ shown = [StError FailedGenerateCover]
        \/ exists data, shown = cover_shown w ui data).
Proof.
  intros Hs Hc Hj. rewrite (main_generate w ui s Hs Hc).
  destruct (format_lyrics_cons (lyrics_entered ui (init_session (session s))))
    as (c & l & E).
  unfold cover_request in *. rewrite E in *.
  destruct (generate_music_posts w (voice_of (session s))
              (instrumental_of (session s)) c l (py "music-01") false None
              (with_session init_session s) Hj) as (r & rest & -> & Hr & Hn).
  exists rest. destruct r as [[[|b bs]|]|e]; unfold events_of; cbn [snd].
  - exists [StError FailedGenerateCover]. repeat split; auto.
  - exists (cover_shown w ui (b :: bs)). repeat split; eauto.
  - exists [StError FailedGenerateCover]. repeat split; auto.
  - exists []. rewrite app_nil_r. repeat split; auto.
Qed.

(** The same run when an id cannot be serialised: no request, the
    refusal reported by [generate_music], the failed cover by [main]. *)
Lemma main_generate_refused (w : world) (ui : widgets) (s : app_state) :
  step (init_session (session s)) = Some 3%Z ->
  clicked ui = Some GenerateAICover ->
  payload_serialisable (cover_request ui (session s)) = false ->
  main w ui s
  = (Ok tt, with_session init_session s,
     [StError (ErrorGenerating RequestException);
      StError FailedGenerateCover]).
Proof.
  intros Hs Hc Hj. rewrite (main_generate w ui s Hs Hc).
  destruct (format_lyrics_cons (lyrics_entered ui (init_session (session s))))
    as (c & l & E).
  unfold cover_request in *. rewrite E in *.
  now rewrite generate_music_refused.
Qed.

Lemma generation_posts_shown (w : world) (ui : widgets) (shown : list event) :
  shown = [] \/ shown = [StError FailedGenerateCover]
  \/ (exists data, shown = cover_shown w ui data) ->
  generation_posts shown = [] /\ ~ In (StError LyricsRequired) shown.
Proof.
  intros [-> | [-> | [data ->]]]; (split; [reflexivity|]); simpl.
  - tauto.
  - intros [H|[]]; discriminate.
  - intros [H|[H|[H|[H|[]]]]]; discriminate.
Qed.

(** The generation requests of such a run: the one request, or none when
    an id cannot be serialised. *)
Lemma main_generate_posts (w : world) (ui : widgets) (s : app_state) :
  step (init_session (session s)) = Some 3%Z ->
  clicked ui = Some GenerateAICover ->
  generation_posts (events_of (main w ui s))
  = if payload_serialisable (cover_request ui (session s))
    then [cover_request ui (session s)]
    else [].
Proof.
  intros Hs Hc.
  destruct (payload_serialisable (cover_request ui (session s))) eqn:Hj.
  - destruct (main_generate_events w ui s Hs Hc Hj)
      as (reports & shown & -> & Hr & _ & Hshown).
    apply (generation_posts_shown w ui) in Hshown. destruct Hshown as [E _].
    change (generation_posts (generation_post w ?x :: ?t))
      with ([x] ++ generation_posts t).
    now rewrite generation_posts_app, E, generation_posts_st_errors.
  - now rewrite (main_generate_refused w ui s Hs Hc Hj).
Qed.






(** ** The mixer controls *)





(** ** The download link *)

Lemma startswith_app (p q : str) : startswith p (p ++ q) = true.
Proof.
  induction p as [|c p IH]; [reflexivity|]. simpl. unfold char_eqb.
  now rewrite N.eqb_refl.
Qed.

Lemma endswith_app (p q : str) : endswith q (p ++ q) = true.
Proof. unfold endswith. rewrite rev_app_distr. apply startswith_app. Qed.

Lemma basename_without_slash (x : str) :
  existsb (char_eqb 47) x = false -> basename x = x.
Proof.
  destruct x as [|c x]; [reflexivity|]. cbn [existsb basename]. intros H.
  apply orb_false_elim in H. destruct H as [Hc Hx]. rewrite Hx.
  unfold char_eqb in *. rewrite N.eqb_sym in Hc. now rewrite Hc.
Qed.

Lemma basename_suffix (p x : str) :
  existsb (char_eqb 47) x = false -> endswith x (basename (p ++ x)) = true.
Proof.
  intros Hx. induction p as [|c p IH].
  - cbn [app]. rewrite basename_without_slash by assumption.
    apply (endswith_app [] x).
  - cbn [app basename].
    destruct (existsb (char_eqb 47) (p ++ x)); [exact IH|].
    destruct (char_eqb c 47).
    + apply endswith_app.
    + apply (endswith_app (c :: p) x).
Qed.

Lemma link_mime_href (bin_str name file_label : str) :
  link_mime (href_of bin_str name file_label) = Some (py "audio/mp3").
Proof. reflexivity. Qed.

(** C3, at the input where the code departs from it.  With "wav" chosen
    and the endpoint answering the hex of "hello", the link shown is
    a base64 data URI of type audio/mp3, not audio/wav, although its
    download name ends in .wav and the player one line earlier is given
    audio/wav. *)
Theorem wav_link_says_mp3 :
  events_of (main hello_world (with_format wav (click GenerateAICover))
               (in_step 3 (PStr (py "v1")) (PStr (py "i1"))))
  = [generation_post hello_world
       (cover_request (with_format wav (click GenerateAICover))
          (session (in_step 3 (PStr (py "v1")) (PStr (py "i1")))));
     TempFile (py "/tmp/tmpk3v1a9xq.wav") (py "hello");
     StAudio (py "/tmp/tmpk3v1a9xq.wav") (py "audio/wav");
     StMarkdown (href_of (py "aGVsbG8=") (py "tmpk3v1a9xq.wav")
                   (py "AI Cover"));
     StSuccess CoverGenerated]
  /\ link_mime (href_of (py "aGVsbG8=") (py "tmpk3v1a9xq.wav") (py "AI Cover"))
     = Some (py "audio/mp3")
  /\ ~ link_mime_follows_format.
Proof.
  assert (E : events_of
                (main hello_world (with_format wav (click GenerateAICover))
                   (in_step 3 (PStr (py "v1")) (PStr (py "i1"))))
              = [generation_post hello_world
                   (cover_request (with_format wav (click GenerateAICover))
                      (session (in_step 3 (PStr (py "v1")) (PStr (py "i1")))));
                 TempFile (py "/tmp/tmpk3v1a9xq.wav") (py "hello");
                 StAudio (py "/tmp/tmpk3v1a9xq.wav") (py "audio/wav");
                 StMarkdown (href_of (py "aGVsbG8=") (py "tmpk3v1a9xq.wav")
                               (py "AI Cover"));
                 StSuccess CoverGenerated])
    by (vm_compute; reflexivity).
  split; [exact E|]. split; [reflexivity|].
  intros H.
  specialize (H hello_world (with_format wav (click GenerateAICover))
                (in_step 3 (PStr (py "v1")) (PStr (py "i1")))
                (href_of (py "aGVsbG8=") (py "tmpk3v1a9xq.wav")
                   (py "AI Cover"))).
  rewrite E in H. discriminate H. right. right. right. now left.
Qed.

(** Whatever the format chosen, the link of a generated cover is a base64
    data URI of type audio/mp3 over the bytes written to the temporary
    file; the format shows in the suffix of that file, hence in the
    download name, and in the type given to the player. *)
Lemma download_link_mime_is_mp3 (w : world) (ui : widgets) (s : app_state)
  (html : str) :
  step (init_session (session s)) = Some 3%Z ->
  clicked ui = Some GenerateAICover ->
  In (StMarkdown html) (events_of (main w ui s)) ->
  link_mime html = Some (py "audio/mp3") /\
  exists data,
    html = href_of (Codec.b64encode data) (basename (tmp_path w ui))
             (py "AI Cover") /\
    In (TempFile (tmp_path w ui) data) (events_of (main w ui s)) /\
    In (StAudio (tmp_path w ui)
          (py "audio/" ++ format_name (output_format ui)))
      (events_of (main w ui s)) /\
    endswith (py "." ++ format_name (output_format ui)) (tmp_path w ui) = true
    /\
    endswith (py "." ++ format_name (output_format ui))
      (basename (tmp_path w ui)) = true.
Proof.
  intros Hs Hc Hin.
  destruct (payload_serialisable (cover_request ui (session s))) eqn:Hj;
    [|rewrite (main_generate_refused w ui s Hs Hc Hj) in Hin;
      destruct Hin as [Hin|[Hin|[]]]; discriminate].
  destruct (main_generate_events w ui s Hs Hc Hj)
    as (reports & shown & E & Hr & _ & Hshown).
  rewrite E in Hin |- *. destruct Hin as [Hin|Hin]; [discriminate|].
  apply in_app_or in Hin. destruct Hin as [Hin|Hin];
    [now apply st_errors_no_markdown in Hin|].
  destruct Hshown as [-> | [-> | [data ->]]].
  - destruct Hin.
  - destruct Hin as [Hin|[]]; discriminate.
  - destruct Hin as [Hin|[Hin|[Hin|[Hin|[]]]]]; try discriminate.
    injection Hin as <-. split; [apply link_mime_href|].
    exists data. split; [reflexivity|]. split; [|split; [|split]].
    + right. apply in_or_app. right. now left.
    + right. apply in_or_app. right. right. now left.
    + unfold tmp_path. apply endswith_app.
    + unfold tmp_path. apply basename_suffix.
      now destruct (output_format ui).
Qed.

(** ** Step 1: a click on "Extract Vocals" *)

Lemma upload_audio_state (w : world) (f p : str) (s : app_state) :
  exists r t, upload_audio w f p s = (r, s, t) /\
  (open_result w f = None ->
   (upload_result w f p = HttpFailed -> r = Ok PNone) /\
   (forall v, upload_result w f p = HttpJson v -> r = Ok v)).
Proof.
  unfold upload_audio. unfold_monad.
  destruct (open_result w f) as [e|].
  - destruct (is_RequestException e); eexists _, _; (split; [reflexivity|]);
      discriminate.
  - destruct (upload_result w f p) as [|v]; cbn;
      eexists _, _; (split; [reflexivity|]); intros _; split;
      try discriminate; try reflexivity.
    intros v' E. now inversion E.
Qed.

(** The body of the download function catches every exception and
    leaves the state alone. *)
Lemma download_body_state (w : world) (u p : str) (s : app_state) :
  exists v t, download_body w u p s = (Ok v, s, t).
Proof.
  unfold download_body. unfold_monad. cbv zeta.
  destruct (ydl_prepare_filename w u _) as [e|name];
    cbn -[Nat.ltb prepared_filename hashed_filename].
  - eauto.
  - destruct (_ <? _)%nat; [|eauto].
    destruct (hashed_filename p _) as [new|];
      cbn -[Nat.ltb prepared_filename hashed_filename]; [|eauto].
    destruct (os_rename_result w _ new);
      cbn -[Nat.ltb prepared_filename hashed_filename]; eauto.
Qed.

Lemma download_keeps_session (w : world) (u p : str) (s : app_state) :
  exists v s' t,
    download_audio_from_youtube w u p s = (Ok v, s', t) /\
    session s' = session s /\ files s' = files s.
Proof.
  unfold download_audio_from_youtube.
  destruct (lookup2 u p (cache s)) as [[v shown]|].
  - eauto 6.
  - destruct (download_body_state w u p s) as (v & t & ->). eauto 6.
Qed.

(** Behind [st.cache_data]: a first call runs the body and stores what it
    returned, a repeated call returns the stored value without touching
    the outside. *)
Lemma download_cache_miss (w : world) (u p : str) (s : app_state) :
  lookup2 u p (cache s) = None ->
  outcome_of (download_audio_from_youtube w u p s)
  = outcome_of (download_body w u p s) /\
  events_of (download_audio_from_youtube w u p s)
  = events_of (download_body w u p s) /\
  lookup2 u p (cache (state_after (download_audio_from_youtube w u p s)))
  = match outcome_of (download_body w u p s) with
    | Ok v => Some (v, filter is_st_element (events_of (download_body w u p s)))
    | Raise _ => None
    end.
Proof.
  intros Hmiss. unfold download_audio_from_youtube. rewrite Hmiss.
  destruct (download_body_state w u p s) as (v & t & ->).
  unfold outcome_of, events_of, state_after, lookup2. cbn.
  now rewrite !str_eqb_refl.
Qed.

Lemma download_cache_hit (w : world) (u p : str) (s : app_state)
  (v : option str) (shown : list event) :
  lookup2 u p (cache s) = Some (v, shown) ->
  download_audio_from_youtube w u p s = (Ok v, s, shown).
Proof.
  intros Hhit. unfold download_audio_from_youtube. now rewrite Hhit.
Qed.

Lemma step1_extract (w : world) (ui : widgets) (s : app_state) :
  use_manual_ids ui = false ->
  clicked ui = Some ExtractVocals ->
  step1 w ui s =
  match download_audio_from_youtube w (voice_url ui) (py "voice") s with
  | (Ok (Some (c :: f)), s1, t1) =>
      match upload_audio w (c :: f) (py "voice") s1 with
      | (Ok up, s2, t2) =>
          if truthy up then
            match up with
            | PDict d =>
                let v := get_or_none (py "voice_id") d in
                (Ok tt, with_session (set_step 2)
                          (with_session (set_voice_id v) s2),
                 t1 ++ t2 ++ [StSuccess (ObtainedVoiceId v)])
            | _ => (Raise AttributeError, s2, t1 ++ t2)
            end
          else (Ok tt, s2, t1 ++ t2)
      | (Raise e, s2, t2) => (Raise e, s2, t1 ++ t2)
      end
  | (Ok _, s1, t1) => (Ok tt, s1, t1)
  | (Raise e, s1, t1) => (Raise e, s1, t1)
  end.
Proof.
  intros Hm Hc. unfold step1, st_button. rewrite Hm, Hc.
  fold (voice_url ui). unfold_monad. cbn [button_eqb].
  destruct (download_audio_from_youtube _ _ _ _) as [[r s1] t1].
  destruct r as [[[|c f]|]|e]; cbn; rewrite ?app_nil_r; try reflexivity.
  destruct (upload_audio _ _ _ _) as [[r s2] t2].
  destruct r as [up|e]; cbn; rewrite ?app_nil_r; try reflexivity.
  destruct (truthy up) eqn:Tup; cbn; rewrite ?app_nil_r; try reflexivity.
  unfold dict_get, get_or_none. unfold_monad.
  destruct up; cbn; rewrite ?app_nil_r; try reflexivity.
  destruct (lookup _ d); cbn; rewrite ?app_nil_r; try reflexivity.
Qed.

Lemma main_extract (w : world) (ui : widgets) (s : app_state) :
  step (init_session (session s)) = Some 1%Z ->
  main w ui s = step1 w ui (with_session init_session s).
Proof.
  intros Hs. rewrite main_eq. cbv zeta.
  change (session (with_session init_session s))
    with (init_session (session s)).
  now rewrite Hs.
Qed.

Lemma step1_extract_session (w : world) (ui : widgets) (s : app_state) :
  use_manual_ids ui = false ->
  clicked ui = Some ExtractVocals ->
  session (state_after (step1 w ui s)) = session s \/
  exists v,
    session (state_after (step1 w ui s))
    = set_step 2 (set_voice_id v (session s)) /\
    outcome_of (step1 w ui s) = Ok tt /\
    In (StSuccess (ObtainedVoiceId v)) (events_of (step1 w ui s)).
Proof.
  intros Hm Hc. rewrite (step1_extract w ui s Hm Hc).
  destruct (download_keeps_session w (voice_url ui) (py "voice") s)
    as (v & s1 & t1 & -> & Hs1 & _).
  unfold state_after, outcome_of, events_of.
  destruct v as [[|c f]|]; cbv beta iota; [now left | | now left].
  destruct (upload_audio_state w (c :: f) (py "voice") s1)
    as (r & t & -> & _).
  destruct r as [up|e]; cbn; [|now left].
  destruct (truthy up); cbn; [|now left].
  destruct up; cbn; try now left.
  right. exists (get_or_none (py "voice_id") d). rewrite Hs1.
  repeat split. rewrite !in_app_iff. right. right. now left.
Qed.

(** C2, at the input where the code departs from it: with the vocals
    fetched and uploaded, the run of "Extract Vocals" itself ends with the
    step at 2. *)
Lemma extract_vocals_sets_step_2 :
  step (session (state_after
                   (main vocals_world (click ExtractVocals)
                      (in_step 1 PNone PNone)))) = Some 2%Z
  /\ ~ extract_keeps_step.
Proof.
  assert (E : step (session (state_after
                   (main vocals_world (click ExtractVocals)
                      (in_step 1 PNone PNone)))) = Some 2%Z)
    by (vm_compute; reflexivity).
  split; [exact E|]. intros H.
  specialize (H vocals_world (click ExtractVocals) (in_step 1 PNone PNone)
                eq_refl eq_refl eq_refl).
  rewrite E in H. discriminate.
Qed.

(** C2, as the code has it.  In step 1's URL mode a run of
    "Extract Vocals" either leaves the session as it was (step 1) or
    stores a voice_id, shows it and sets the step to 2 in that same run.
    It advances when the fetch yields a file name and the upload a
    non-empty JSON object, the voice_id being that object's "voice_id"
    entry or [None]; it leaves the session alone when the fetch yields no
    file name or the upload request fails. *)
Theorem extract_vocals_advances_on_success (w : world) (ui : widgets)
  (s : app_state) :
  step (init_session (session s)) = Some 1%Z ->
  use_manual_ids ui = false ->
  clicked ui = Some ExtractVocals ->
  let s0 := with_session init_session s in
  let r := main w ui s in
  (session (state_after r) = session s0 \/
   exists v,
     session (state_after r) = set_step 2 (set_voice_id v (session s0)) /\
     outcome_of r = Ok tt /\
     In (StSuccess (ObtainedVoiceId v)) (events_of r)) /\
  (forall c f s1 t1 d,
     download_audio_from_youtube w (voice_url ui) (py "voice") s0
     = (Ok (Some (c :: f)), s1, t1) ->
     open_result w (c :: f) = None ->
     upload_result w (c :: f) (py "voice") = HttpJson (PDict d) ->
     d <> [] ->
     session (state_after r)
     = set_step 2 (set_voice_id (get_or_none (py "voice_id") d) (session s0))
     /\ outcome_of r = Ok tt) /\
  (forall v s1 t1,
     download_audio_from_youtube w (voice_url ui) (py "voice") s0
     = (Ok v, s1, t1) ->
     v = None \/ v = Some [] ->
     session (state_after r) = session s0) /\
  (forall c f s1 t1,
     download_audio_from_youtube w (voice_url ui) (py "voice") s0
     = (Ok (Some (c :: f)), s1, t1) ->
     open_result w (c :: f) = None ->
     upload_result w (c :: f) (py "voice") = HttpFailed ->
     session (state_after r) = session s0).
Proof.
  intros Hs Hm Hc s0 r. subst r.
  rewrite (main_extract w ui s Hs). fold s0.
  split; [exact (step1_extract_session w ui s0 Hm Hc)|].
  rewrite (step1_extract w ui _ Hm Hc).
  destruct (download_keeps_session w (voice_url ui) (py "voice") s0)
    as (v & s1 & t1 & -> & Hs1 & _).
  assert (Hup : forall c f,
             exists r t, upload_audio w (c :: f) (py "voice") s1 = (r, s1, t)
             /\ (open_result w (c :: f) = None ->
                 (upload_result w (c :: f) (py "voice") = HttpFailed ->
                  r = Ok PNone) /\
                 (forall x, upload_result w (c :: f) (py "voice") = HttpJson x
                            -> r = Ok x)))
    by (intros; apply upload_audio_state).
  unfold state_after, outcome_of, events_of.
  split; [|split].
  - intros c f s1' t1' d E Ho Hu Hd. inversion E; subst.
    cbv beta iota. destruct (Hup c f) as (r & t & -> & Hr).
    destruct (Hr Ho) as [_ Hj]. rewrite (Hj _ Hu).
    destruct d as [|e d]; [congruence|]. cbn. rewrite Hs1. now split.
  - intros v' s1' t1' E Hv. inversion E; subst.
    destruct Hv as [-> | ->]; cbn; exact Hs1.
  - intros c f s1' t1' E Ho Hu. inversion E; subst.
    cbv beta iota. destruct (Hup c f) as (r & t & -> & Hr).
    destruct (Hr Ho) as [Hf _]. rewrite (Hf Hu). cbn. exact Hs1.
Qed.

Lemma extract_vocals_advances_on_success_witness :
  session (state_after (main vocals_world (click ExtractVocals)
                          (in_step 1 PNone PNone)))
  = set_step 2 (set_voice_id (PStr (py "v1"))
                  (session (in_step 1 PNone PNone)))
  /\ outcome_of (main vocals_world (click ExtractVocals)
                   (in_step 1 PNone PNone)) = Ok tt.
Proof.
  eapply (proj1 (proj2 (extract_vocals_advances_on_success vocals_world
                          (click ExtractVocals) (in_step 1 PNone PNone)
                          eq_refl eq_refl eq_refl))
            118%N (py "oice_song.mp3") _ _ [(py "voice_id", PStr (py "v1"))]);
    [reflexivity | reflexivity | reflexivity | discriminate].
Defined.

(** ** Long file names *)

Lemma download_body_long (w : world) (url purpose name : str)
  (s : app_state) :
  ydl_prepare_filename w url (outtmpl purpose) = YdlFile name ->
  (200 < List.length (prepared_filename name))%nat ->
  download_body w url purpose s =
  let filename := prepared_filename name in
  match hashed_filename purpose filename with
  | None =>
      (Ok None, s,
       [YdlDownload url (outtmpl purpose);
        StError (ErrorDownloading UnicodeEncodeError)])
  | Some new_filename =>
      match os_rename_result w filename new_filename with
      | None =>
          (Ok (Some new_filename), s,
           [YdlDownload url (outtmpl purpose);
            OsRename filename new_filename])
      | Some e =>
          (Ok None, s,
           [YdlDownload url (outtmpl purpose);
            OsRename filename new_filename; StError (ErrorDownloading e)])
      end
  end.
Proof.
  intros Hy Hlen. apply Nat.ltb_lt in Hlen.
  unfold download_body. fold (outtmpl purpose). unfold_monad. cbv zeta.
  rewrite Hy, Hlen.
  destruct (hashed_filename purpose _) as [new|]; [|reflexivity].
  destruct (os_rename_result w _ new); reflexivity.
Qed.

(** C7.  When the name the fetch arrives at (yt-dlp's prepared name with
    the two extensions replaced) is longer than 200 characters, the file
    is renamed to, and the function returns, exactly
    purpose + "_" + the MD5 hex digest of that name (UTF-8) + ".mp3":
    so it is whenever the name encodes and the rename succeeds, and no
    other name is ever returned.  The new name depends on the purpose and
    the original name only, so two calls arriving at the same original
    name return the same hashed name, whatever the world, URL and state. *)
Theorem long_filename_hashed (w : world) (url purpose name : str)
  (s : app_state) :
  ydl_prepare_filename w url (outtmpl purpose) = YdlFile name ->
  (200 < List.length (prepared_filename name))%nat ->
  let filename := prepared_filename name in
  (forall b,
     Codec.encode filename = Some b ->
     os_rename_result w filename
       (purpose ++ py "_" ++ MD5.hexdigest b ++ py ".mp3") = None ->
     download_body w url purpose s
     = (Ok (Some (purpose ++ py "_" ++ MD5.hexdigest b ++ py ".mp3")), s,
        [YdlDownload url (outtmpl purpose);
         OsRename filename
           (purpose ++ py "_" ++ MD5.hexdigest b ++ py ".mp3")])) /\
  (forall f,
     outcome_of (download_body w url purpose s) = Ok (Some f) ->
     exists b, Codec.encode filename = Some b /\
               f = purpose ++ py "_" ++ MD5.hexdigest b ++ py ".mp3") /\
  (forall (w' : world) (url' name' : str) (s' : app_state) (f f' : str),
     ydl_prepare_filename w' url' (outtmpl purpose) = YdlFile name' ->
     prepared_filename name' = filename ->
     outcome_of (download_body w url purpose s) = Ok (Some f) ->
     outcome_of (download_body w' url' purpose s') = Ok (Some f') ->
     f = f').
Proof.
  intros Hy Hlen filename.
  assert (Hret : forall w0 url0 name0 s0 f0,
             ydl_prepare_filename w0 url0 (outtmpl purpose) = YdlFile name0 ->
             prepared_filename name0 = filename ->
             outcome_of (download_body w0 url0 purpose s0) = Ok (Some f0) ->
             hashed_filename purpose filename = Some f0).
  { intros w0 url0 name0 s0 f0 Hy0 Hn0.
    rewrite (download_body_long w0 url0 purpose name0 s0 Hy0)
      by (rewrite Hn0; exact Hlen).
    cbv zeta. rewrite Hn0.
    destruct (hashed_filename purpose filename) as [new|];
      [|discriminate].
    destruct (os_rename_result w0 filename new); [discriminate|].
    unfold outcome_of. cbn. congruence. }
  split; [|split].
  - intros b Hb Hr.
    rewrite (download_body_long w url purpose name s Hy Hlen). cbv zeta.
    fold filename. unfold hashed_filename. rewrite Hb, Hr. reflexivity.
  - intros f Hf. apply (Hret w url name s f Hy eq_refl) in Hf.
    unfold hashed_filename in Hf.
    destruct (Codec.encode filename) as [b|]; [|discriminate].
    exists b. split; [reflexivity | congruence].
  - intros w' url' name' s' f f' Hy' Hn' Hf Hf'.
    apply (Hret w url name s f Hy eq_refl) in Hf.
    apply (Hret w' url' name' s' f' Hy' Hn') in Hf'. congruence.
Qed.

Lemma long_filename_hashed_witness :
  (200 < List.length (prepared_filename long_name))%nat /\
  outcome_of (download_body long_name_world (py "https://youtu.be/x")
                (py "voice") start)
  = Ok (Some (py "voice_e475142184bca519e3b364b670caaddf.mp3")).
Proof.
  split; [vm_compute; lia|].
  assert (Hb : Codec.encode (prepared_filename long_name)
               = Some (prepared_filename long_name))
    by (vm_compute; reflexivity).
  rewrite (proj1 (long_filename_hashed long_name_world
                    (py "https://youtu.be/x") (py "voice") long_name start
                    eq_refl ltac:(vm_compute; lia))
             (prepared_filename long_name) Hb eq_refl).
  vm_compute. reflexivity.
Defined.

(** ** The step stays within 1, 2, 3 *)

Lemma step2_upload (w : world) (ui : widgets) (s : app_state) :
  clicked ui = Some UploadInstrumental ->
  step2 w ui s =
  match download_audio_from_youtube w (instrumental_url ui)
          (py "instrumental") s with
  | (Ok (Some (c :: f)), s1, t1) =>
      match upload_audio w (c :: f) (py "song") s1 with
      | (Ok up, s2, t2) =>
          if truthy up then
            match up with
            | PDict d =>
                let v := get_or_none (py "instrumental_id") d in
                (Ok tt, with_session (set_instrumental_id v) s2,
                 t1 ++ t2 ++ [StSuccess (ObtainedInstrumentalId v)])
            | _ => (Raise AttributeError, s2, t1 ++ t2)
            end
          else (Ok tt, s2, t1 ++ t2 ++ [StError FailedUploadInstrumental])
      | (Raise e, s2, t2) => (Raise e, s2, t1 ++ t2)
      end
  | (Ok _, s1, t1) => (Ok tt, s1, t1 ++ [StError FailedDownloadInstrumental])
  | (Raise e, s1, t1) => (Raise e, s1, t1)
  end.
Proof.
  intros Hc. unfold step2, st_button. rewrite Hc.
  fold (instrumental_url ui). unfold_monad. cbn [button_eqb].
  destruct (download_audio_from_youtube _ _ _ _) as [[r s1] t1].
  destruct r as [[[|c f]|]|e]; cbn; rewrite ?app_nil_r; try reflexivity.
  destruct (upload_audio _ _ _ _) as [[r s2] t2].
  destruct r as [up|e]; cbn; rewrite ?app_nil_r; try reflexivity.
  destruct (truthy up) eqn:Tup; cbn; rewrite ?app_nil_r; try reflexivity.
  unfold dict_get, get_or_none. unfold_monad.
  destruct up; cbn; rewrite ?app_nil_r; try reflexivity.
  destruct (lookup _ d); cbn; rewrite ?app_nil_r; try reflexivity.
Qed.

Lemma step1_session (w : world) (ui : widgets) (s : app_state) :
  step (session s) = Some 1%Z ->
  valid_step (session (state_after (step1 w ui s))).
Proof.
  intros Hs. unfold valid_step.
  destruct (use_manual_ids ui) eqn:Hm, (clicked ui) as [[]|] eqn:Hc;
    try (unfold step1, st_button; rewrite Hm, Hc; unfold_monad; cbn;
         rewrite ?Hs; cbn; tauto).
  destruct (step1_extract_session w ui s Hm Hc) as [-> | (v & -> & _)];
    cbn; tauto.
Qed.

Lemma step2_session (w : world) (ui : widgets) (s : app_state) :
  step (session s) = Some 2%Z ->
  valid_step (session (state_after (step2 w ui s))).
Proof.
  intros Hs. unfold valid_step.
  destruct (clicked ui) as [[]|] eqn:Hc;
    try (unfold step2, st_button; rewrite Hc; unfold_monad; cbn;
         rewrite ?Hs; cbn; tauto).
  rewrite (step2_upload w ui s Hc).
  destruct (download_keeps_session w (instrumental_url ui)
              (py "instrumental") s) as (v & s1 & t1 & -> & Hs1 & _).
  unfold state_after.
  destruct v as [[|c f]|]; cbv beta iota; cbn [fst snd]; rewrite ?Hs1; auto.
  destruct (upload_audio_state w (c :: f) (py "song") s1) as (r & t & -> & _).
  destruct r as [up|e]; cbn; rewrite ?Hs1; auto.
  destruct (truthy up); cbn; rewrite ?Hs1; auto.
  destruct up; cbn; rewrite ?Hs1; auto.
Qed.

(** Step 3 never writes to the session. *)
Lemma step3_session (w : world) (ui : widgets) (s : app_state) :
  init_session (session s) = session s ->
  session (state_after (step3 w ui s)) = session s.
Proof.
  intros Hinit.
  destruct (init_session_fields (session s)) as (Hv & Hi & l & Hl).
  rewrite Hinit in Hv, Hi, Hl.
  destruct (clicked ui) as [[]|] eqn:Hc;
    try (unfold step3, st_button; rewrite Hc; unfold_monad; cbn;
         rewrite Hl; reflexivity).
  rewrite (step3_generate w ui s _ _ _ Hl Hv Hi Hc).
  destruct (generate_music_state w (voice_of (session s))
              (instrumental_of (session s))
              (format_lyrics_for_minimax (lyrics_entered ui (session s)))
              (py "music-01") false None s)
    as (r & t & ->).
  now destruct r as [[[|b bs]|]|e].
Qed.

(** Nor to the memoised downloads. *)
Lemma step3_cache (w : world) (ui : widgets) (s : app_state) :
  init_session (session s) = session s ->
  cache (state_after (step3 w ui s)) = cache s.
Proof.
  intros Hinit.
  destruct (init_session_fields (session s)) as (Hv & Hi & l & Hl).
  rewrite Hinit in Hv, Hi, Hl.
  destruct (clicked ui) as [[]|] eqn:Hc;
    try (unfold step3, st_button; rewrite Hc; unfold_monad; cbn;
         rewrite Hl; reflexivity).
  rewrite (step3_generate w ui s _ _ _ Hl Hv Hi Hc).
  destruct (generate_music_state w (voice_of (session s))
              (instrumental_of (session s))
              (format_lyrics_for_minimax (lyrics_entered ui (session s)))
              (py "music-01") false None s)
    as (r & t & ->).
  now destruct r as [[[|b bs]|]|e].
Qed.

Lemma init_session_idem (x : session_state) :
  init_session (init_session x) = init_session x.
Proof.
  unfold init_session. cbn.
  now destruct (step x), (voice_id x), (instrumental_id x), (lyrics x).
Qed.

Lemma valid_step_init (x : session_state) :
  valid_step x -> valid_step (init_session x).
Proof.
  unfold valid_step, init_session. cbn. intros [H | [H | H]]; rewrite H; auto.
Qed.

(** One run keeps the step within 1, 2, 3: "Confirm IDs" goes to 3,
    "Extract Vocals" to 2 or nowhere, "Next Step" one further from 1 or
    2, and no two buttons are down in the same run. *)
Lemma main_keeps_step_valid (w : world) (ui : widgets) (s : app_state) :
  valid_step (init_session (session s)) ->
  valid_step (session (state_after (main w ui s))).
Proof.
  intros Hv. rewrite main_eq. cbv zeta.
  change (session (with_session init_session s))
    with (init_session (session s)).
  destruct Hv as [H | [H | H]]; rewrite H; cbn [Z.eqb Pos.eqb].
  - now apply step1_session.
  - now apply step2_session.
  - rewrite step3_session by apply init_session_idem.
    right. right. exact H.
Qed.

Lemma session_step_valid (runs : list (world * widgets)) (s : app_state) :
  valid_step (init_session (session s)) ->
  valid_step (init_session (session (fst (session_run runs s)))).
Proof.
  revert s. induction runs as [|[w ui] runs IH]; intros s Hv; [exact Hv|].
  cbn [session_run].
  destruct (session_run runs (state_after (main w ui s))) as [s' t'] eqn:E.
  cbn [fst]. change s' with (fst (s', t')). rewrite <- E. apply IH.
  apply valid_step_init. now apply main_keeps_step_valid.
Qed.

(** Every session that starts fresh has its step in 1, 2, 3 after any
    number of runs. *)
Lemma fresh_session_step_valid (runs : list (world * widgets)) :
  valid_step (init_session (session (fst (session_run runs start)))).
Proof. apply session_step_valid. left. reflexivity. Qed.

(** ** The requests of a session *)

(** What the store replays was shown by [st] elements, and neither yt-dlp,
    the rename nor the upload is a generation request. *)
Lemma lookup2_quiet (s : app_state) (u p : str) (v : option str)
  (shown : list event) :
  quiet_cache s -> lookup2 u p (cache s) = Some (v, shown) ->
  generation_posts shown = [].
Proof.
  unfold quiet_cache, lookup2. intros Hq H.
  destruct (find _ (cache s)) as [e|] eqn:F; [|discriminate].
  apply find_some in F. destruct F as [Hin _].
  rewrite Forall_forall in Hq. specialize (Hq e Hin).
  destruct e as [u' [p' [v' shown']]]. cbn in *. now injection H as _ <-.
Qed.

Lemma generation_posts_st_elements (t : list event) :
  generation_posts (filter is_st_element t) = [].
Proof.
  induction t as [|ev t IH]; [reflexivity|].
  destruct ev; cbn; assumption.
Qed.

Lemma download_body_posts (w : world) (u p : str) (s : app_state) :
  exists v t, download_body w u p s = (Ok v, s, t) /\ generation_posts t = [].
Proof.
  unfold download_body. unfold_monad. cbv zeta.
  destruct (ydl_prepare_filename w u _) as [e|name];
    cbn -[Nat.ltb prepared_filename hashed_filename].
  - eauto.
  - destruct (_ <? _)%nat; [|eauto].
    destruct (hashed_filename p _) as [new|];
      cbn -[Nat.ltb prepared_filename hashed_filename]; [|eauto].
    destruct (os_rename_result w _ new);
      cbn -[Nat.ltb prepared_filename hashed_filename]; eauto.
Qed.

Lemma download_posts (w : world) (u p : str) (s : app_state) :
  quiet_cache s ->
  exists v s' t,
    download_audio_from_youtube w u p s = (Ok v, s', t) /\
    session s' = session s /\ quiet_cache s' /\ generation_posts t = [].
Proof.
  intros Hq. unfold download_audio_from_youtube.
  destruct (lookup2 u p (cache s)) as [[v shown]|] eqn:L.
  - exists v, s, shown. repeat split; auto. now apply (lookup2_quiet s u p v).
  - destruct (download_body_posts w u p s) as (v & t & -> & Ht).
    eexists _, _, _. split; [reflexivity|]. repeat split; auto.
    unfold quiet_cache. cbn [cache]. constructor; [|exact Hq].
    cbn [snd]. apply generation_posts_st_elements.
Qed.

Lemma upload_posts (w : world) (f p : str) (s : app_state) :
  exists r t, upload_audio w f p s = (r, s, t) /\ generation_posts t = [].
Proof.
  unfold upload_audio. unfold_monad.
  destruct (open_result w f) as [e|].
  - destruct (is_RequestException e); eexists _, _; split; reflexivity.
  - destruct (upload_result w f p) as [|v]; cbn;
      eexists _, _; split; reflexivity.
Qed.

Lemma quiet_cache_session (f : session_state -> session_state)
  (s : app_state) :
  quiet_cache (with_session f s) <-> quiet_cache s.
Proof. reflexivity. Qed.


Lemma step1_posts (w : world) (ui : widgets) (s : app_state) :
  quiet_cache s ->
  quiet_cache (state_after (step1 w ui s)) /\
  generation_posts (events_of (step1 w ui s)) = [].
Proof.
  intros Hq.
  destruct (use_manual_ids ui) eqn:Hm, (clicked ui) as [[]|] eqn:Hc;
    try (unfold step1, st_button, next_step, attr; rewrite Hm, Hc;
         unfold_monad; cbn; try destruct (step (session s));
         cbn; (split; [exact Hq | reflexivity])).
  rewrite (step1_extract w ui s Hm Hc).
  destruct (download_posts w (voice_url ui) (py "voice") s Hq)
    as (v & s1 & t1 & -> & _ & Hq1 & Ht1).
  unfold state_after, events_of.
  destruct v as [[|c f]|]; cbv beta iota; cbn [fst snd]; auto.
  destruct (upload_posts w (c :: f) (py "voice") s1) as (r & t & -> & Ht).
  destruct r as [up|e]; cbn [fst snd];
    rewrite ?generation_posts_app, ?Ht1, ?Ht; auto.
  destruct (truthy up); cbn [fst snd];
    rewrite ?generation_posts_app, ?Ht1, ?Ht; auto.
  destruct up; cbn [fst snd];
    rewrite ?generation_posts_app, ?Ht1, ?Ht; auto.
Qed.

Lemma step2_posts (w : world) (ui : widgets) (s : app_state) :
  quiet_cache s ->
  quiet_cache (state_after (step2 w ui s)) /\
  generation_posts (events_of (step2 w ui s)) = [].
Proof.
  intros Hq.
  destruct (clicked ui) as [[]|] eqn:Hc;
    try (unfold step2, st_button, next_step, attr; rewrite Hc;
         unfold_monad; cbn; try destruct (step (session s));
         cbn; (split; [exact Hq | reflexivity])).
  rewrite (step2_upload w ui s Hc).
  destruct (download_posts w (instrumental_url ui) (py "instrumental") s Hq)
    as (v & s1 & t1 & -> & _ & Hq1 & Ht1).
  unfold state_after, events_of.
  destruct v as [[|c f]|]; cbv beta iota; cbn [fst snd];
    rewrite ?generation_posts_app, ?Ht1; auto.
  destruct (upload_posts w (c :: f) (py "song") s1) as (r & t & -> & Ht).
  destruct r as [up|e]; cbn [fst snd];
    rewrite ?generation_posts_app, ?Ht1, ?Ht; auto.
  destruct (truthy up); cbn [fst snd];
    rewrite ?generation_posts_app, ?Ht1, ?Ht; auto.
  destruct up; cbn [fst snd];
    rewrite ?generation_posts_app, ?Ht1, ?Ht; auto.
Qed.

(** The one request of step 3 carries the formatted lyrics. *)
Lemma step3_posts (w : world) (ui : widgets) (s : app_state) :
  step (init_session (session s)) = Some 3%Z ->
  forall request,
    In request (generation_posts (events_of (main w ui s))) ->
    Payload.lyrics request <> [].
Proof.
  intros Hs request.
  destruct (clicked ui) as [[]|] eqn:Hc;
    try (rewrite main_eq; cbv zeta;
         change (session (with_session init_session s))
           with (init_session (session s));
         rewrite Hs; cbn [Z.eqb Pos.eqb];
         unfold step3, st_button; rewrite Hc; unfold_monad; cbn;
         destruct (lyrics (session s)); cbn; tauto).
  rewrite (main_generate_posts w ui s Hs Hc).
  destruct (payload_serialisable _); [|intros []].
  intros [<-|[]]. unfold cover_request, generation_request.
  cbn [Payload.lyrics].
  now destruct (format_lyrics_cons
                  (lyrics_entered ui (init_session (session s))))
    as (c & l & ->).
Qed.

(** One run keeps the store quiet and sends no request without lyrics. *)
Lemma main_posts (w : world) (ui : widgets) (s : app_state) :
  quiet_cache s ->
  quiet_cache (state_after (main w ui s)) /\
  forall request,
    In request (generation_posts (events_of (main w ui s))) ->
    Payload.lyrics request <> [].
Proof.
  intros Hq.
  destruct (step (init_session (session s))) as [z|] eqn:Hs;
    [|unfold init_session in Hs; cbn in Hs;
      destruct (step (session s)); discriminate].
  destruct (Z.eq_dec z 3) as [->|Hz].
  - split; [|now apply step3_posts].
    rewrite main_eq. cbv zeta.
    change (session (with_session init_session s))
      with (init_session (session s)).
    rewrite Hs. cbn [Z.eqb Pos.eqb]. unfold quiet_cache.
    now rewrite step3_cache by apply init_session_idem.
  - rewrite main_eq. cbv zeta.
    change (session (with_session init_session s))
      with (init_session (session s)).
    rewrite Hs.
    assert (Hq0 : quiet_cache (with_session init_session s)) by exact Hq.
    destruct (z =? 1)%Z.
    { destruct (step1_posts w ui _ Hq0) as [H1 H2]. rewrite H2.
      split; [exact H1 | intros ? []]. }
    destruct (z =? 2)%Z.
    { destruct (step2_posts w ui _ Hq0) as [H1 H2]. rewrite H2.
      split; [exact H1 | intros ? []]. }
    destruct (z =? 3)%Z eqn:E3; [apply Z.eqb_eq in E3; contradiction|].
    split; [exact Hq0 | intros ? []].
Qed.

Lemma session_posts (runs : list (world * widgets)) (s : app_state)
  (request : Payload.t) :
  quiet_cache s ->
  In request (generation_posts (snd (session_run runs s))) ->
  Payload.lyrics request <> [].
Proof.
  revert s. induction runs as [|[w ui] runs IH]; intros s Hq; [intros []|].
  cbn [session_run].
  destruct (main_posts w ui s Hq) as [Hq' Hmain].
  specialize (IH (state_after (main w ui s)) Hq').
  destruct (session_run runs (state_after (main w ui s))) as [s' t'].
  cbn [snd] in *. rewrite generation_posts_app, in_app_iff.
  intros [H|H]; auto.
Qed.

(** Whatever its arguments, [generate_music] sends at most the request it
    builds from them, and none with empty lyrics. *)
Lemma generate_music_request (w : world) (rv ri : pyval) (lyr model : str)
  (stream : bool) (a : option Payload.settings) (s : app_state)
  (request : Payload.t) :
  In request
    (generation_posts
       (events_of (generate_music w rv ri lyr model stream a s))) ->
  lyr <> [] /\ request = generation_request rv ri lyr model stream a.
Proof.
  destruct lyr as [|c lyr]; [rewrite generate_music_empty; intros []|].
  destruct (payload_serialisable
              (generation_request rv ri (c :: lyr) model stream a)) eqn:Hj.
  - destruct (generate_music_posts w rv ri c lyr model stream a s Hj)
      as (r & rest & -> & Hr & _).
    unfold events_of. cbn [snd].
    change (generation_posts (generation_post w ?x :: ?t))
      with ([x] ++ generation_posts t).
    rewrite (generation_posts_st_errors rest Hr).
    intros [<-|[]]. split; [discriminate | reflexivity].
  - rewrite generate_music_refused by assumption. intros [].
Qed.

(** C1, as the code has it.  In every session started fresh, each request
    sent to the generation endpoint carries lyrics that are not empty;
    [generate_music] sends a request only when its lyrics argument is not
    empty, and called with empty lyrics it reports that lyrics are
    required, returns nothing and sends nothing. *)
Theorem generation_needs_only_lyrics :
  (forall (runs : list (world * widgets)) (request : Payload.t),
     In request (generation_posts (snd (session_run runs start))) ->
     Payload.lyrics request <> []) /\
  (forall (w : world) (rv ri : pyval) (lyr model : str) (stream : bool)
          (a : option Payload.settings) (s : app_state)
          (request : Payload.t),
     In request
       (generation_posts
          (events_of (generate_music w rv ri lyr model stream a s))) ->
     lyr <> []) /\
  (forall (w : world) (rv ri : pyval) (model : str) (stream : bool)
          (a : option Payload.settings) (s : app_state),
     generate_music w rv ri [] model stream a s
     = (Ok None, s, [StError LyricsRequired])).
Proof.
  split; [|split].
  - intros runs request. apply session_posts. constructor.
  - intros w rv ri lyr model stream a s request H.
    now apply generate_music_request in H.
  - intros. apply generate_music_empty.
Qed.

Lemma generation_needs_only_lyrics_witness :
  Payload.lyrics
    (generation_request PNone PNone
       (format_lyrics_for_minimax default_lyrics) (py "music-01") false None)
  <> [].
Proof.
  apply (proj1 generation_needs_only_lyrics
           [(offline, rerun); (offline, click NextStep);
            (offline, click NextStep); (offline, rerun);
            (offline, click GenerateAICover)]).
  vm_compute. left. reflexivity.
Defined.

(** * Further properties *)

(** ** upload_audio *)



(** X2.  When the file cannot be opened, no request is sent and nothing is
    reported: the exception leaves [upload_audio], whose handler is for
    request errors only, and it leaves the run of "Extract Vocals" too,
    with the session as it was. *)
Theorem upload_audio_unreadable_file (w : world) (file_path purpose : str)
  (s : app_state) (e : exn) :
  open_result w file_path = Some e ->
  is_RequestException e = false ->
  upload_audio w file_path purpose s = (Raise e, s, []) /\
  (forall (ui : widgets) (c : char) (f : str) (s1 : app_state)
          (t1 : list event),
     file_path = c :: f ->
     step (init_session (session s)) = Some 1%Z ->
     use_manual_ids ui = false ->
     clicked ui = Some ExtractVocals ->
     download_audio_from_youtube w (voice_url ui) (py "voice")
       (with_session init_session s) = (Ok (Some file_path), s1, t1) ->
     outcome_of (main w ui s) = Raise e /\
     session (state_after (main w ui s)) = init_session (session s) /\
     events_of (main w ui s) = t1).
Proof.
  intros Ho He.
  assert (Hup : forall p0 s0, upload_audio w file_path p0 s0 = (Raise e, s0, [])).
  { intros p0 s0. unfold upload_audio. unfold_monad. rewrite Ho, He.
    reflexivity. }
  split; [apply Hup|].
  intros ui c f s1 t1 -> Hs Hm Hc Hd.
  rewrite (main_extract w ui s Hs), (step1_extract w ui _ Hm Hc), Hd.
  cbv beta iota. rewrite Hup.
  destruct (download_keeps_session w (voice_url ui) (py "voice")
              (with_session init_session s)) as (v & s' & t' & E & Hs1 & _).
  rewrite Hd in E. inversion E; subst.
  unfold outcome_of, state_after, events_of. cbn.
  rewrite app_nil_r. repeat split. exact Hs1.
Qed.

Lemma upload_audio_unreadable_file_witness :
  outcome_of (main missing_file_world (click ExtractVocals)
                (in_step 1 PNone PNone)) = Raise OSError /\
  events_of (main missing_file_world (click ExtractVocals)
               (in_step 1 PNone PNone))
  = [YdlDownload (py "https://www.youtube.com/watch?v=xxxxxx")
       (py "voice_%(title).50s.%(ext)s")].
Proof.
  destruct (proj2 (upload_audio_unreadable_file missing_file_world
                     (py "voice_song.opus") (py "voice")
                     (in_step 1 PNone PNone) OSError eq_refl eq_refl)
              (click ExtractVocals) 118%N (py "oice_song.opus") _ _
              eq_refl eq_refl eq_refl eq_refl eq_refl)
    as (Hout & _ & Hev).
  split; assumption.
Defined.

(** ** download_audio_from_youtube *)

Lemma startswith_length (p s : str) :
  startswith p s = true -> (List.length p <= List.length s)%nat.
Proof.
  revert s. induction p as [|x p IH]; intros [|y s]; simpl;
    try discriminate; try lia.
  intros H. apply andb_prop in H. destruct H as [_ H]. apply IH in H. lia.
Qed.

Lemma replace_from_length (old new : str) (k : nat) (s : str) :
  (List.length new <= List.length old)%nat ->
  (List.length (replace_from old new k s) <= List.length s - k)%nat.
Proof.
  intros Hlen. revert k. induction s as [|c s IH]; intros k; [simpl; lia|].
  destruct k as [|k].
  - cbn [replace_from]. destruct (startswith old (c :: s)) eqn:E.
    + apply startswith_length in E. rewrite length_app.
      specialize (IH (Nat.pred (List.length old))). simpl in *. lia.
    + specialize (IH O). simpl in *. lia.
  - cbn [replace_from]. specialize (IH k). simpl. lia.
Qed.

Lemma prepared_filename_length (name : str) :
  (List.length (prepared_filename name) <= List.length name)%nat.
Proof.
  unfold prepared_filename, replace.
  pose proof (replace_from_length (py ".m4a") (py ".mp3") O
                (replace_from (py ".webm") (py ".mp3") O name)
                ltac:(simpl; lia)).
  pose proof (replace_from_length (py ".webm") (py ".mp3") O name
                ltac:(simpl; lia)).
  lia.
Qed.

(** X3.  The function never raises.  Whatever yt-dlp, the encoder or the
    rename do, the call returns a file name or [None], and the session and
    the temporary files are as before.  When yt-dlp raises, the error is
    shown and [None] returned. *)
Theorem download_never_raises (w : world) (url purpose : str)
  (s : app_state) :
  (exists v s' t,
     download_audio_from_youtube w url purpose s = (Ok v, s', t) /\
     session s' = session s /\ files s' = files s) /\
  (forall e,
     ydl_prepare_filename w url (outtmpl purpose) = YdlRaised e ->
     download_body w url purpose s
     = (Ok None, s,
        [YdlDownload url (outtmpl purpose); StError (ErrorDownloading e)])) /\
  (forall name new_name e,
     ydl_prepare_filename w url (outtmpl purpose) = YdlFile name ->
     (200 < List.length (prepared_filename name))%nat ->
     hashed_filename purpose (prepared_filename name) = Some new_name ->
     os_rename_result w (prepared_filename name) new_name = Some e ->
     download_body w url purpose s
     = (Ok None, s,
        [YdlDownload url (outtmpl purpose);
         OsRename (prepared_filename name) new_name;
         StError (ErrorDownloading e)])).
Proof.
  split; [apply download_keeps_session|]. split.
  - intros e Hy. unfold download_body. fold (outtmpl purpose).
    unfold_monad. cbv zeta. rewrite Hy. reflexivity.
  - intros name new_name e Hy Hlen Hh Hr.
    rewrite (download_body_long w url purpose name s Hy Hlen). cbv zeta.
    now rewrite Hh, Hr.
Qed.

Lemma download_never_raises_witness :
  download_body offline (py "https://youtu.be/x") (py "voice") start
  = (Ok None, start,
     [YdlDownload (py "https://youtu.be/x") (py "voice_%(title).50s.%(ext)s");
      StError (ErrorDownloading DownloadError)]).
Proof.
  exact (proj1 (proj2 (download_never_raises offline (py "https://youtu.be/x")
                         (py "voice") start)) DownloadError eq_refl).
Defined.

(** X4.  A name of at most 200 characters is never hashed.  The two
    replacements do not lengthen a name, so when yt-dlp's prepared name
    has at most 200 characters the function returns it with ".webm" and
    ".m4a" replaced by ".mp3", and renames nothing. *)
Theorem short_filename_kept (w : world) (url purpose name : str)
  (s : app_state) :
  ydl_prepare_filename w url (outtmpl purpose) = YdlFile name ->
  (List.length name <= 200)%nat ->
  download_body w url purpose s
  = (Ok (Some (replace (py ".m4a") (py ".mp3")
                 (replace (py ".webm") (py ".mp3") name))), s,
     [YdlDownload url (outtmpl purpose)]).
Proof.
  intros Hy Hlen.
  pose proof (prepared_filename_length name) as Hp.
  assert (Hlt : (200 <? List.length (prepared_filename name))%nat = false)
    by (apply Nat.ltb_ge; lia).
  unfold download_body. fold (outtmpl purpose). unfold_monad. cbv zeta.
  rewrite Hy, Hlt. reflexivity.
Qed.

Lemma short_filename_kept_witness :
  download_body vocals_world (py "https://youtu.be/x") (py "voice") start
  = (Ok (Some (py "voice_song.mp3")), start,
     [YdlDownload (py "https://youtu.be/x")
        (py "voice_%(title).50s.%(ext)s")]).
Proof.
  apply (short_filename_kept vocals_world (py "https://youtu.be/x")
           (py "voice") (py "voice_song.webm") start eq_refl).
  vm_compute. lia.
Defined.

(** X5.  Behind [st.cache_data] a download is attempted once per URL and
    purpose.  A second call with the same arguments, in whatever world,
    returns what the first returned, a failure ([None]) included, leaves
    the state alone and, after a first call that ran the body, touches
    nothing outside: its trace is the [st] elements of the first call. *)
Theorem download_memoised (w w' : world) (url purpose : str) (s : app_state) :
  let first := download_audio_from_youtube w url purpose s in
  let second :=
    download_audio_from_youtube w' url purpose (state_after first) in
  outcome_of second = outcome_of first /\
  state_after second = state_after first /\
  (lookup2 url purpose (cache s) = None ->
   events_of second = filter is_st_element (events_of first) /\
   existsb is_outside_call (events_of second) = false).
Proof.
  cbv zeta.
  destruct (lookup2 url purpose (cache s)) as [[v shown]|] eqn:Hc.
  - rewrite (download_cache_hit w url purpose s v shown Hc).
    unfold state_after. cbn [fst snd].
    rewrite (download_cache_hit w' url purpose s v shown Hc).
    split; [reflexivity|]. split; [reflexivity|]. discriminate.
  - destruct (download_body_state w url purpose s) as (v & t & E).
    assert (F : download_audio_from_youtube w url purpose s
                = (Ok v,
                   {| session := session s;
                      cache := (url, (purpose, (v, filter is_st_element t)))
                               :: cache s;
                      files := files s |}, t))
      by (unfold download_audio_from_youtube; now rewrite Hc, E).
    rewrite F. unfold state_after. cbn [fst snd].
    erewrite download_cache_hit
      by (unfold lookup2; cbn; rewrite !str_eqb_refl; reflexivity).
    unfold outcome_of, events_of. cbn [fst snd].
    split; [reflexivity|]. split; [reflexivity|]. intros _.
    split; [reflexivity|].
    clear. induction t as [|ev t IH]; [reflexivity|].
    cbn [filter]. destruct ev; cbn; exact IH.
Qed.

Lemma download_memoised_witness :
  lookup2 (py "https://youtu.be/x") (py "voice") (cache start) = None /\
  download_audio_from_youtube vocals_world (py "https://youtu.be/x")
    (py "voice")
    (state_after (download_audio_from_youtube offline (py "https://youtu.be/x")
                    (py "voice") start))
  = (Ok None,
     state_after (download_audio_from_youtube offline (py "https://youtu.be/x")
                    (py "voice") start),
     [StError (ErrorDownloading DownloadError)]).
Proof.
  split; [reflexivity|].
  pose proof (download_memoised offline vocals_world (py "https://youtu.be/x")
                (py "voice") start) as H.
  cbv zeta in H. destruct H as (Ho & Hs & He).
  destruct (He eq_refl) as [He' _].
  destruct (download_audio_from_youtube vocals_world _ _ _) as [[r s'] t].
  unfold outcome_of, state_after, events_of in Ho, Hs, He'.
  cbn [fst snd] in Ho, Hs, He'. now rewrite Ho, Hs, He'.
Defined.

(** ** The hashed name *)

Lemma le_bytes_length (n : nat) (x : N) : List.length (MD5.le_bytes n x) = n.
Proof. unfold MD5.le_bytes. now rewrite length_map, length_seq. Qed.

Lemma digest_length (msg : bytes) : List.length (MD5.digest msg) = 16%nat.
Proof.
  unfold MD5.digest.
  destruct (fold_left MD5.compress _ MD5.init) as [[[a b] c] d].
  now rewrite !length_app, !le_bytes_length.
Qed.

Lemma hex_of_bytes_length (b : bytes) :
  List.length (Codec.hex_of_bytes b) = (2 * List.length b)%nat.
Proof.
  unfold Codec.hex_of_bytes. induction b as [|x b IH]; [reflexivity|].
  cbn [flat_map]. rewrite length_app, IH. simpl. lia.
Qed.

Lemma hexdigest_length (msg : bytes) :
  List.length (MD5.hexdigest msg) = 32%nat.
Proof.
  unfold MD5.hexdigest. now rewrite hex_of_bytes_length, digest_length.
Qed.

(** X6.  The name a long file name is replaced by has the purpose's length
    plus 37 characters, whatever the original name, and ends in ".mp3";
    with a purpose of at most 163 characters it is within the 200
    characters the function allows. *)
Theorem hashed_filename_is_short (purpose filename new_name : str) :
  hashed_filename purpose filename = Some new_name ->
  List.length new_name = (List.length purpose + 37)%nat /\
  startswith (purpose ++ py "_") new_name = true /\
  endswith (py ".mp3") new_name = true /\
  ((List.length purpose <= 163)%nat -> (List.length new_name <= 200)%nat).
Proof.
  unfold hashed_filename.
  destruct (Codec.encode filename) as [b|]; [|discriminate].
  intros E.
  assert (En : new_name = purpose ++ py "_" ++ MD5.hexdigest b ++ py ".mp3")
    by congruence.
  clear E. subst new_name.
  assert (Hl : List.length (purpose ++ py "_" ++ MD5.hexdigest b ++ py ".mp3")
               = (List.length purpose + 37)%nat).
  { rewrite !length_app, hexdigest_length. simpl. lia. }
  split; [exact Hl|]. split; [|split].
  - rewrite app_assoc. apply startswith_app.
  - rewrite !app_assoc. apply endswith_app.
  - rewrite Hl. lia.
Qed.

Lemma hashed_filename_is_short_witness :
  List.length (py "voice_e475142184bca519e3b364b670caaddf.mp3") = 42%nat.
Proof.
  exact (proj1 (hashed_filename_is_short (py "voice")
                  (prepared_filename long_name)
                  (py "voice_e475142184bca519e3b364b670caaddf.mp3")
                  ltac:(vm_compute; reflexivity))).
Defined.

(** ** generate_music: what it returns and what escapes it *)

Ltac no_bytes := solve [let H := fresh in intros H; inversion H].



(** X7.  Bytes are returned only when they were decoded from the response.
    If [generate_music] returns bytes, the lyrics were not empty, the 2xx
    body is a JSON object whose "data" is an object whose "audio" is a
    non-empty string, the bytes are that string decoded from hex, the
    state is untouched and the trace is the one request. *)
Theorem generated_bytes_come_from_response (w : world) (rv ri : pyval)
  (lyr model : str) (stream : bool) (a : option Payload.settings)
  (s s' : app_state) (b : bytes) (t : list event) :
  generate_music w rv ri lyr model stream a s = (Ok (Some b), s', t) ->
  lyr <> [] /\ s' = s /\
  t = [generation_post w (generation_request rv ri lyr model stream a)] /\
  exists top data hex,
    generation_result w (generation_request rv ri lyr model stream a)
    = HttpJson (PDict top) /\
    lookup (py "data") top = Some (PDict data) /\
    lookup (py "audio") data = Some (PStr hex) /\
    hex <> [] /\ Codec.fromhex hex = Some b.
Proof.
  destruct lyr as [|c lyr]; [rewrite generate_music_empty; no_bytes|].
  destruct (payload_serialisable
              (generation_request rv ri (c :: lyr) model stream a)) eqn:Hj;
    [|rewrite (generate_music_refused w rv ri c lyr model stream a s Hj);
      no_bytes].
  unfold generate_music, generation_post.
  cbn [str_truthy negb]. cbv zeta.
  unfold generation_request in *. rewrite Hj. cbn [negb]. unfold_monad.
  destruct (generation_result w _) as [|result]; [cbn; no_bytes|].
  unfold py_in, subscript, bytes_fromhex. unfold_monad.
  destruct result as [| | | | sr | lr | dr]; cbv beta iota; try no_bytes.
  - destruct (contains _ sr); cbv beta iota; no_bytes.
  - destruct (existsb _ lr); cbv beta iota; no_bytes.
  - rewrite existsb_lookup.
    destruct (lookup _ dr) as [data|] eqn:Hd; cbv beta iota; [|no_bytes].
    destruct data as [| | | | sd | ld | dd]; cbv beta iota; try no_bytes.
    + destruct (contains _ sd); cbv beta iota; no_bytes.
    + destruct (existsb _ ld); cbv beta iota; no_bytes.
    + rewrite existsb_lookup.
      destruct (lookup _ dd) as [audio|] eqn:Ha; cbv beta iota; [|no_bytes].
      destruct (truthy audio) eqn:Ht; cbv beta iota; [|no_bytes].
      destruct audio as [| | | | sa | la | da]; cbv beta iota; try no_bytes.
      destruct (Codec.fromhex sa) eqn:Hx; cbv beta iota; [|no_bytes].
      intros H. inversion H; subst.
      split; [discriminate|]. split; [reflexivity|]. split; [reflexivity|].
      exists dr, dd, sa. repeat split; auto.
      intros ->. discriminate.
Qed.

Lemma generated_bytes_come_from_response_witness :
  exists top data hex,
    generation_result hello_world
      (generation_request PNone PNone (py "####") (py "music-01") false None)
    = HttpJson (PDict top) /\
    lookup (py "data") top = Some (PDict data) /\
    lookup (py "audio") data = Some (PStr hex) /\
    hex <> [] /\ Codec.fromhex hex = Some (py "hello").
Proof.
  apply (generated_bytes_come_from_response hello_world PNone PNone
           (py "####") (py "music-01") false None start start (py "hello")
           [generation_post hello_world
              (generation_request PNone PNone (py "####") (py "music-01")
                 false None)]).
  reflexivity.
Defined.



(** ** From the endpoint's answer to what step 3 shows *)

Lemma fromhex_pair (c d : char) (hi lo : N) (r : str) :
  Codec.is_ascii_space c = false ->
  Codec.hexval c = Some hi -> Codec.hexval d = Some lo ->
  Codec.fromhex (c :: d :: r)
  = match Codec.fromhex r with
    | Some x => Some ((16 * hi + lo)%N :: x)
    | None => None
    end.
Proof. intros Hs Hc Hd. cbn [Codec.fromhex]. now rewrite Hs, Hc, Hd. Qed.

Lemma hexdigit_decodes (n : N) :
  (n < 16)%N ->
  Codec.hexval (Codec.hexdigit n) = Some n /\
  Codec.is_ascii_space (Codec.hexdigit n) = false.
Proof.
  intros H.
  assert (E : In n [0; 1; 2; 3; 4; 5; 6; 7; 8; 9; 10; 11; 12; 13; 14; 15]%N)
    by (simpl; lia).
  simpl in E.
  repeat (destruct E as [<-|E]; [split; reflexivity|]). destruct E.
Qed.

(** Decoding undoes lower-case hexadecimal encoding. *)
Lemma fromhex_hex_of_bytes (data : bytes) :
  Forall (fun x => (x < 256)%N) data ->
  Codec.fromhex (Codec.hex_of_bytes data) = Some data.
Proof.
  induction 1 as [|x data Hx _ IH]; [reflexivity|].
  unfold Codec.hex_of_bytes. cbn [flat_map app].
  fold (Codec.hex_of_bytes data).
  assert (H1 : (x / 16 < 16)%N) by (apply N.Div0.div_lt_upper_bound; lia).
  assert (H2 : (x mod 16 < 16)%N) by (apply N.mod_lt; lia).
  destruct (hexdigit_decodes _ H1) as [Hv1 Hs1].
  destruct (hexdigit_decodes _ H2) as [Hv2 _].
  rewrite (fromhex_pair _ _ _ _ _ Hs1 Hv1 Hv2), IH. f_equal. f_equal.
  rewrite (N.div_mod x 16) at 3 by lia. reflexivity.
Qed.

Lemma hex_of_bytes_nonempty (b : N) (bs : bytes) :
  Codec.hex_of_bytes (b :: bs) <> [].
Proof. unfold Codec.hex_of_bytes. cbn [flat_map app]. discriminate. Qed.

Lemma fromhex_blank (hex : str) :
  forallb Codec.is_ascii_space hex = true -> Codec.fromhex hex = Some [].
Proof.
  induction hex as [|c hex IH]; [reflexivity|]. cbn [forallb]. intros H.
  apply andb_prop in H. destruct H as [Hc Hr].
  cbn [Codec.fromhex]. rewrite Hc. now apply IH.
Qed.

(** A click on "Generate AI Cover" when the request can be sent and the
    endpoint answers 2xx with a string under data.audio. *)
Lemma main_generate_audio (w : world) (ui : widgets) (s : app_state)
  (hex : str) :
  step (init_session (session s)) = Some 3%Z ->
  clicked ui = Some GenerateAICover ->
  ids_serialisable (session s) = true ->
  generation_result w (cover_request ui (session s)) = audio_response hex ->
  let s0 := with_session init_session s in
  let post := generation_post w (cover_request ui (session s)) in
  main w ui s =
  match hex with
  | [] => (Ok tt, s0, [post; StError AudioDataNotFound;
                       StError FailedGenerateCover])
  | _ :: _ =>
      match Codec.fromhex hex with
      | None => (Ok tt, s0, [post; StError (ErrorConverting ValueError);
                             StError FailedGenerateCover])
      | Some [] => (Ok tt, s0, [post; StError FailedGenerateCover])
      | Some (b :: bs) =>
          (Ok tt, add_file (tmp_path w ui) (b :: bs) s0,
           post :: cover_shown w ui (b :: bs))
      end
  end.
Proof.
  intros Hs Hc Hj Hres s0 post. subst post.
  rewrite (main_generate w ui s Hs Hc). fold s0.
  destruct (format_lyrics_cons (lyrics_entered ui (init_session (session s))))
    as (c & l & E).
  unfold cover_request in *. rewrite E in *.
  destruct (generate_music_response w (voice_of (session s))
              (instrumental_of (session s)) c l (py "music-01") false None s0
              _ Hj Hres) as (_ & H & _).
  destruct (H _ eq_refl) as (_ & H').
  destruct (H' _ eq_refl) as (He & Hbad & Hgood).
  destruct hex as [|h hex]; [now rewrite (He eq_refl)|].
  destruct (Codec.fromhex (h :: hex)) as [[|b bs]|] eqn:Hx.
  - now rewrite (Hgood [] ltac:(discriminate) eq_refl).
  - now rewrite (Hgood (b :: bs) ltac:(discriminate) eq_refl).
  - now rewrite (Hbad ltac:(discriminate) eq_refl).
Qed.

(** X9.  Round trip from the endpoint to the page.  When the request can
    be sent (its ids can be serialised) and the endpoint answers with the
    lower-case hex of a non-empty byte string, the run writes exactly those
    bytes to the temporary file (suffix: the chosen format), gives the
    player that file, links the base64 of the same bytes under the file's
    base name, reports success and leaves the session alone. *)
Theorem cover_bytes_round_trip (w : world) (ui : widgets) (s : app_state)
  (b : N) (bs : bytes) :
  step (init_session (session s)) = Some 3%Z ->
  clicked ui = Some GenerateAICover ->
  ids_serialisable (session s) = true ->
  Forall (fun x => (x < 256)%N) (b :: bs) ->
  generation_result w (cover_request ui (session s))
  = audio_response (Codec.hex_of_bytes (b :: bs)) ->
  let path := tmp_stem w ++ py "." ++ format_name (output_format ui) in
  main w ui s
  = (Ok tt,
     {| session := init_session (session s); cache := cache s;
        files := (path, b :: bs) :: files s |},
     [generation_post w (cover_request ui (session s));
      TempFile path (b :: bs);
      StAudio path (py "audio/" ++ format_name (output_format ui));
      StMarkdown (href_of (Codec.b64encode (b :: bs)) (basename path)
                    (py "AI Cover"));
      StSuccess CoverGenerated]).
Proof.
  intros Hs Hc Hj Hb Hres path.
  rewrite (main_generate_audio w ui s _ Hs Hc Hj Hres). cbv zeta.
  rewrite (fromhex_hex_of_bytes _ Hb).
  destruct (Codec.hex_of_bytes (b :: bs)) eqn:E;
    [now apply hex_of_bytes_nonempty in E|].
  reflexivity.
Qed.

Lemma cover_bytes_round_trip_witness :
  events_of (main hello_world (click GenerateAICover)
               (in_step 3 (PStr (py "v1")) (PStr (py "i1"))))
  = [generation_post hello_world
       (cover_request (click GenerateAICover)
          (session (in_step 3 (PStr (py "v1")) (PStr (py "i1")))));
     TempFile (py "/tmp/tmpk3v1a9xq.mp3") (py "hello");
     StAudio (py "/tmp/tmpk3v1a9xq.mp3") (py "audio/mp3");
     StMarkdown (href_of (py "aGVsbG8=") (py "tmpk3v1a9xq.mp3")
                   (py "AI Cover"));
     StSuccess CoverGenerated].
Proof.
  rewrite (cover_bytes_round_trip hello_world (click GenerateAICover)
             (in_step 3 (PStr (py "v1")) (PStr (py "i1"))) 104 (py "ello")
             eq_refl eq_refl eq_refl
             ltac:(repeat constructor) eq_refl).
  reflexivity.
Defined.

(** X10.  An audio string with a character that is neither a hexadecimal
    digit nor ASCII white space, answered to a request that could be sent,
    is reported twice, as a conversion error by [generate_music] and as a
    failed cover by [main]; nothing is written and the state stays as
    initialised. *)
Theorem undecodable_audio_reported (w : world) (ui : widgets) (s : app_state)
  (hex : str) (x : char) :
  step (init_session (session s)) = Some 3%Z ->
  clicked ui = Some GenerateAICover ->
  ids_serialisable (session s) = true ->
  generation_result w (cover_request ui (session s)) = audio_response hex ->
  In x hex ->
  Codec.hexval x = None ->
  Codec.is_ascii_space x = false ->
  main w ui s
  = (Ok tt, with_session init_session s,
     [generation_post w (cover_request ui (session s));
      StError (ErrorConverting ValueError); StError FailedGenerateCover]).
Proof.
  intros Hs Hc Hj Hres Hin Hx Hsp.
  rewrite (main_generate_audio w ui s _ Hs Hc Hj Hres). cbv zeta.
  rewrite (fromhex_rejects hex x Hin Hx Hsp).
  destruct hex; [destruct Hin | reflexivity].
Qed.

Lemma undecodable_audio_reported_witness :
  events_of (main bad_hex_world (click GenerateAICover)
               (in_step 3 (PStr (py "v1")) (PStr (py "i1"))))
  = [generation_post bad_hex_world
       (cover_request (click GenerateAICover)
          (session (in_step 3 (PStr (py "v1")) (PStr (py "i1")))));
     StError (ErrorConverting ValueError); StError FailedGenerateCover].
Proof.
  rewrite (undecodable_audio_reported bad_hex_world (click GenerateAICover)
             (in_step 3 (PStr (py "v1")) (PStr (py "i1"))) (py "68zz") 122
             eq_refl eq_refl eq_refl eq_refl ltac:(simpl; tauto) eq_refl
             eq_refl).
  reflexivity.
Defined.

(** X11.  An audio string of ASCII white space only, answered to a request
    that could be sent, passes the presence test and decodes to no bytes
    at all; the run then shows only the failed cover, without a conversion
    error and without writing a file. *)
Theorem blank_audio_is_a_failure (w : world) (ui : widgets) (s : app_state)
  (c : char) (hex : str) :
  step (init_session (session s)) = Some 3%Z ->
  clicked ui = Some GenerateAICover ->
  ids_serialisable (session s) = true ->
  generation_result w (cover_request ui (session s))
  = audio_response (c :: hex) ->
  forallb Codec.is_ascii_space (c :: hex) = true ->
  main w ui s
  = (Ok tt, with_session init_session s,
     [generation_post w (cover_request ui (session s));
      StError FailedGenerateCover]).
Proof.
  intros Hs Hc Hj Hres Hb.
  rewrite (main_generate_audio w ui s _ Hs Hc Hj Hres). cbv zeta.
  now rewrite (fromhex_blank _ Hb).
Qed.

Lemma blank_audio_is_a_failure_witness :
  events_of (main blank_hex_world (click GenerateAICover)
               (in_step 3 (PStr (py "v1")) (PStr (py "i1"))))
  = [generation_post blank_hex_world
       (cover_request (click GenerateAICover)
          (session (in_step 3 (PStr (py "v1")) (PStr (py "i1")))));
     StError FailedGenerateCover].
Proof.
  rewrite (blank_audio_is_a_failure blank_hex_world (click GenerateAICover)
             (in_step 3 (PStr (py "v1")) (PStr (py "i1"))) 32 (py " ")
             eq_refl eq_refl eq_refl eq_refl eq_refl).
  reflexivity.
Defined.



(** The second way is within reach of a session: the upload stores the
    NaN it answered as voice_id, and the click on "Generate AI Cover"
    three runs later sends nothing, although the endpoint would answer. *)
Example nan_voice_id_is_not_sent :
  let runs :=
    [(nan_id_world, rerun); (nan_id_world, click ExtractVocals);
     (nan_id_world, click NextStep); (nan_id_world, rerun)] in
  voice_id (session (fst (session_run runs start))) = Some (PFloat FNan) /\
  main nan_id_world (click GenerateAICover) (fst (session_run runs start))
  = (Ok tt, fst (session_run runs start),
     [StError (ErrorGenerating RequestException);
      StError FailedGenerateCover]).
Proof. vm_compute. split; reflexivity. Qed.

(** ** The steps *)

(** X13.  Step 3 is never left and never writes to the session: whatever is
    clicked and however the generation ends, an exception included, the
    session after the run is the initialised session before it, and the
    memoised downloads are untouched. *)
Theorem step3_is_final (w : world) (ui : widgets) (s : app_state) :
  step (init_session (session s)) = Some 3%Z ->
  session (state_after (main w ui s)) = init_session (session s) /\
  cache (state_after (main w ui s)) = cache s.
Proof.
  intros Hs. rewrite main_eq. cbv zeta.
  change (session (with_session init_session s))
    with (init_session (session s)).
  rewrite Hs. cbn [Z.eqb Pos.eqb].
  split.
  - now rewrite step3_session by apply init_session_idem.
  - now rewrite step3_cache by apply init_session_idem.
Qed.

Lemma step3_is_final_witness :
  session (state_after (main null_data_world (click GenerateAICover)
                          (in_step 3 (PStr (py "v1")) (PStr (py "i1")))))
  = session (in_step 3 (PStr (py "v1")) (PStr (py "i1"))).
Proof.
  exact (proj1 (step3_is_final null_data_world (click GenerateAICover)
                  (in_step 3 (PStr (py "v1")) (PStr (py "i1"))) eq_refl)).
Defined.

Lemma main_step2 (w : world) (ui : widgets) (s : app_state) :
  step (init_session (session s)) = Some 2%Z ->
  main w ui s = step2 w ui (with_session init_session s).
Proof.
  intros Hs. rewrite main_eq. cbv zeta.
  change (session (with_session init_session s))
    with (init_session (session s)).
  now rewrite Hs.
Qed.

(** X14.  "Upload Instrumental" never moves the step and never touches
    voice_id or the lyrics.  When the fetch yields a file name and the
    upload a non-empty JSON object it stores that object's
    "instrumental_id" entry (or [None]); when the fetch yields nothing it
    shows that the download failed, when the upload request fails that
    the upload failed, and the session is as before. *)
Theorem upload_instrumental_stays (w : world) (ui : widgets)
  (s : app_state) :
  step (init_session (session s)) = Some 2%Z ->
  clicked ui = Some UploadInstrumental ->
  let s0 := with_session init_session s in
  let r := main w ui s in
  (step (session (state_after r)) = Some 2%Z /\
   voice_id (session (state_after r)) = voice_id (session s0) /\
   lyrics (session (state_after r)) = lyrics (session s0)) /\
  (forall c f s1 t1 d,
     download_audio_from_youtube w (instrumental_url ui) (py "instrumental")
       s0 = (Ok (Some (c :: f)), s1, t1) ->
     open_result w (c :: f) = None ->
     upload_result w (c :: f) (py "song") = HttpJson (PDict d) ->
     d <> [] ->
     session (state_after r)
     = set_instrumental_id (get_or_none (py "instrumental_id") d) (session s0)
     /\ outcome_of r = Ok tt) /\
  (forall v s1 t1,
     download_audio_from_youtube w (instrumental_url ui) (py "instrumental")
       s0 = (Ok v, s1, t1) ->
     v = None \/ v = Some [] ->
     session (state_after r) = session s0 /\
     events_of r = t1 ++ [StError FailedDownloadInstrumental]) /\
  (forall c f s1 t1,
     download_audio_from_youtube w (instrumental_url ui) (py "instrumental")
       s0 = (Ok (Some (c :: f)), s1, t1) ->
     open_result w (c :: f) = None ->
     upload_result w (c :: f) (py "song") = HttpFailed ->
     session (state_after r) = session s0 /\
     In (StError FailedUploadInstrumental) (events_of r)).
Proof.
  intros Hs Hc s0 r. subst r.
  rewrite (main_step2 w ui s Hs), (step2_upload w ui _ Hc). fold s0.
  assert (Hs0 : step (session s0) = Some 2%Z) by exact Hs.
  destruct (download_keeps_session w (instrumental_url ui)
              (py "instrumental") s0) as (v & s1 & t1 & -> & Hs1 & _).
  assert (Hup : forall c f,
             exists r t, upload_audio w (c :: f) (py "song") s1 = (r, s1, t)
             /\ (open_result w (c :: f) = None ->
                 (upload_result w (c :: f) (py "song") = HttpFailed ->
                  r = Ok PNone) /\
                 (forall x, upload_result w (c :: f) (py "song") = HttpJson x
                            -> r = Ok x)))
    by (intros; apply upload_audio_state).
  unfold state_after, outcome_of, events_of.
  split; [|split; [|split]].
  - destruct v as [[|c f]|]; cbv beta iota; cbn [fst snd]; rewrite ?Hs1;
      auto.
    destruct (Hup c f) as (r & t & -> & _).
    destruct r as [up|e]; cbn; rewrite ?Hs1; auto.
    destruct (truthy up); cbn; rewrite ?Hs1; auto.
    destruct up; cbn; rewrite ?Hs1; auto.
  - intros c f s1' t1' d E Ho Hu Hd. inversion E; subst.
    cbv beta iota. destruct (Hup c f) as (r & t & -> & Hr).
    destruct (Hr Ho) as [_ Hj]. rewrite (Hj _ Hu).
    destruct d as [|e d]; [congruence|]. cbn. rewrite Hs1. now split.
  - intros v' s1' t1' E Hv. inversion E; subst.
    destruct Hv as [-> | ->]; cbn; now split.
  - intros c f s1' t1' E Ho Hu. inversion E; subst.
    cbv beta iota. destruct (Hup c f) as (r & t & -> & Hr).
    destruct (Hr Ho) as [Hf _]. rewrite (Hf Hu). cbn. split; [exact Hs1|].
    rewrite !in_app_iff. right. right. now left.
Qed.

Lemma upload_instrumental_stays_witness :
  session (state_after (main instrumental_world (click UploadInstrumental)
                          (in_step 2 (PStr (py "v1")) PNone)))
  = set_instrumental_id (PStr (py "i1"))
      (session (in_step 2 (PStr (py "v1")) PNone))
  /\ outcome_of (main instrumental_world (click UploadInstrumental)
                   (in_step 2 (PStr (py "v1")) PNone)) = Ok tt.
Proof.
  eapply (proj1 (proj2 (upload_instrumental_stays instrumental_world
                          (click UploadInstrumental)
                          (in_step 2 (PStr (py "v1")) PNone)
                          eq_refl eq_refl))
            105%N (py "nstrumental_song.mp3") _ _
            [(py "instrumental_id", PStr (py "i1"))]);
    [reflexivity | reflexivity | reflexivity | discriminate].
Defined.

(** X15.  "Next Step" in step 1 or 2 moves one step further and does nothing
    else: no outside call, no message, ids and lyrics as they were,
    whether or not an id has been obtained. *)
Theorem next_step_advances (w : world) (ui : widgets) (s : app_state)
  (n : Z) :
  step (init_session (session s)) = Some n ->
  n = 1%Z \/ n = 2%Z ->
  clicked ui = Some NextStep ->
  main w ui s
  = (Ok tt,
     {| session := set_step (n + 1) (init_session (session s));
        cache := cache s; files := files s |},
     []).
Proof.
  intros Hs Hn Hc. rewrite main_eq. cbv zeta.
  change (session (with_session init_session s))
    with (init_session (session s)).
  rewrite Hs.
  destruct Hn as [-> | ->]; cbn [Z.eqb Pos.eqb].
  - unfold step1, st_button. rewrite Hc.
    destruct (use_manual_ids ui); unfold_monad; cbn -[init_session];
      rewrite Hs; reflexivity.
  - unfold step2, st_button. rewrite Hc. unfold_monad. cbn -[init_session].
    rewrite Hs. reflexivity.
Qed.

Lemma next_step_advances_witness :
  main offline (click NextStep) (in_step 2 (PStr (py "v1")) PNone)
  = (Ok tt, in_step 3 (PStr (py "v1")) PNone, []).
Proof.
  exact (next_step_advances offline (click NextStep)
           (in_step 2 (PStr (py "v1")) PNone) 2 eq_refl
           (or_intror eq_refl) eq_refl).
Defined.

(** ** More on the lyrics formatter *)

Lemma format_lyrics_body (lyrics : str) :
  format_lyrics_for_minimax lyrics = py "##" ++ lyrics_body lyrics ++ py "##".
Proof. rewrite format_lyrics_refines. reflexivity. Qed.

Lemma split_app_sep_any (sep : char) (a b : str) :
  split sep (a ++ sep :: b) = split sep a ++ split sep b.
Proof.
  rewrite split_app. cbn [split]. unfold char_eqb. rewrite N.eqb_refl.
  cbn [hd tl]. rewrite app_nil_r.
  change (removelast (split sep a) ++ last (split sep a) [] :: split sep b)
    with (removelast (split sep a) ++ [last (split sep a) []] ++ split sep b).
  rewrite app_assoc, <- app_removelast_last by apply split_not_nil.
  reflexivity.
Qed.

Lemma join_app (sep : str) (xs ys : list str) :
  xs <> [] -> ys <> [] ->
  join sep (xs ++ ys) = join sep xs ++ sep ++ join sep ys.
Proof.
  intros Hx Hy. induction xs as [|x xs IH]; [congruence|].
  destruct xs as [|x' xs].
  - destruct ys; [congruence | reflexivity].
  - change (join sep ((x :: x' :: xs) ++ ys))
      with (x ++ sep ++ join sep ((x' :: xs) ++ ys)).
    rewrite IH by discriminate.
    change (join sep (x :: x' :: xs)) with (x ++ sep ++ join sep (x' :: xs)).
    now rewrite <- !app_assoc.
Qed.

Lemma kept_fixed (ls : list str) :
  Forall (fun l => ~ In nl l /\ nonblank l = true /\ strip l = l) ls ->
  kept ls = ls.
Proof.
  induction 1 as [|l ls (_ & Hn & Hs) _ IH]; [reflexivity|].
  unfold kept in *. cbn [filter]. rewrite Hn. cbn [map]. now rewrite Hs, IH.
Qed.

Lemma lyrics_body_nil_iff (lyrics : str) :
  kept (split nl lyrics) = [] <-> has_nonblank_line lyrics = false.
Proof. apply kept_nil_iff. Qed.

(** X16.  Lyrics given in two parts.  The formatter treats two texts joined
    by a newline as the lines of the one followed by the lines of the
    other: what stands between the sentinels is the two bodies joined by
    one newline, or the body of the one part when the other has blank
    lines only.  In particular blank lines and white space between, before
    or after the parts leave no trace. *)
Theorem format_lyrics_concat (a b : str) :
  format_lyrics_for_minimax (a ++ [nl] ++ b)
  = py "##" ++ lyrics_body (a ++ [nl] ++ b) ++ py "##" /\
  lyrics_body (a ++ [nl] ++ b)
  = (if has_nonblank_line a
     then if has_nonblank_line b
          then lyrics_body a ++ [nl] ++ lyrics_body b
          else lyrics_body a
     else lyrics_body b).
Proof.
  split; [apply format_lyrics_body|].
  unfold lyrics_body. cbn [app]. rewrite split_app_sep_any, kept_app.
  destruct (has_nonblank_line a) eqn:Ha, (has_nonblank_line b) eqn:Hb.
  - apply join_app; intros E; apply lyrics_body_nil_iff in E; congruence.
  - apply lyrics_body_nil_iff in Hb. rewrite Hb. now rewrite app_nil_r.
  - apply lyrics_body_nil_iff in Ha. now rewrite Ha.
  - apply lyrics_body_nil_iff in Ha. now rewrite Ha.
Qed.

(** X17.  The formatter normalises.  Formatting what it put between the
    sentinels gives the same result again, and so does formatting the
    input with surrounding white space removed. *)
Theorem format_lyrics_normal_form (lyrics : str) :
  lyrics_body (lyrics_body lyrics) = lyrics_body lyrics /\
  format_lyrics_for_minimax (lyrics_body lyrics)
  = format_lyrics_for_minimax lyrics /\
  format_lyrics_for_minimax (strip lyrics)
  = format_lyrics_for_minimax lyrics.
Proof.
  assert (H : lyrics_body (lyrics_body lyrics) = lyrics_body lyrics).
  { unfold lyrics_body.
    pose proof (kept_lines _ (split_no_sep nl lyrics)) as Hk.
    destruct (kept (split nl lyrics)) as [|l ls] eqn:E; [reflexivity|].
    rewrite split_join.
    - now rewrite (kept_fixed _ Hk).
    - discriminate.
    - eapply Forall_impl; [|exact Hk]. simpl. tauto. }
  split; [exact H|]. split.
  - now rewrite !format_lyrics_body, H.
  - rewrite !format_lyrics_body. unfold lyrics_body.
    now rewrite kept_split_strip.
Qed.

Lemma rstrip_idem (l : str) : rstrip (rstrip l) = rstrip l.
Proof. unfold rstrip. now rewrite rev_involutive, lstrip_idem. Qed.

Lemma lstrip_strip (l : str) : lstrip (strip l) = strip l.
Proof.
  unfold strip.
  destruct (lstrip_head l) as [E | (c & z & E & Hc)]; rewrite E.
  - reflexivity.
  - rewrite rstrip_cons_nonspace by assumption. simpl. now rewrite Hc.
Qed.

Lemma settled_of_kept (l : str) :
  ~ In nl l /\ nonblank l = true /\ strip l = l -> settled l.
Proof.
  intros (Hn & Hb & Hs). unfold settled. repeat split.
  - exact Hn.
  - intros ->. discriminate.
  - rewrite <- Hs. apply lstrip_strip.
  - rewrite <- Hs. unfold strip. apply rstrip_idem.
Qed.

Lemma kept_of_settled (l : str) :
  settled l -> ~ In nl l /\ nonblank l = true /\ strip l = l.
Proof.
  intros (Hn & Hne & Hl & Hr).
  assert (Hs : strip l = l) by (unfold strip; now rewrite Hl, Hr).
  repeat split; try assumption.
  unfold nonblank. rewrite Hs. now destruct l.
Qed.

Lemma settled_hashes : settled (py "##").
Proof.
  unfold settled. split; [|repeat split; discriminate].
  intros [H|[H|[]]]; discriminate H.
Qed.

Lemma settled_append (l : str) : settled l -> settled (l ++ py "##").
Proof.
  intros (Hn & Hne & Hl & Hr). unfold settled.
  split; [|split; [|split]].
  - rewrite in_app_iff. intros [H|[H|[H|[]]]]; [tauto | |]; discriminate H.
  - destruct l; discriminate.
  - destruct (lstrip_head l) as [E | (c & z & E & Hc)];
      rewrite Hl in E; [congruence|]. subst l. simpl. now rewrite Hc.
  - change (l ++ py "##") with (l ++ [35%N] ++ [35%N]).
    rewrite app_assoc. now apply rstrip_snoc_nonspace.
Qed.

Lemma settled_prepend (l : str) : settled l -> settled (py "##" ++ l).
Proof.
  intros (Hn & Hne & Hl & Hr). unfold settled.
  split; [|split; [|split]].
  - intros [H|[H|H]]; [discriminate H | discriminate H | tauto].
  - discriminate.
  - reflexivity.
  - change (py "##" ++ l) with (35%N :: 35%N :: l).
    now rewrite !rstrip_cons_nonspace, Hr by reflexivity.
Qed.

Lemma append_last_settled (ls : list str) :
  Forall settled ls -> Forall settled (append_last (py "##") ls).
Proof.
  induction 1 as [|l ls Hl Hls IH].
  - constructor; [apply settled_hashes | constructor].
  - destruct ls as [|m r].
    + constructor; [now apply settled_append | constructor].
    + constructor; assumption.
Qed.

Lemma append_last_not_nil (q : str) (ls : list str) : append_last q ls <> [].
Proof. destruct ls as [|l [|m r]]; discriminate. Qed.

Lemma join_append_last (sep q : str) (ls : list str) :
  join sep (append_last q ls) = join sep ls ++ q.
Proof.
  induction ls as [|l ls IH]; [reflexivity|].
  destruct ls as [|m r]; [reflexivity|].
  change (append_last q (l :: m :: r)) with (l :: append_last q (m :: r)).
  pose proof (append_last_not_nil q (m :: r)) as Hne.
  destruct (append_last q (m :: r)) as [|x y] eqn:E; [congruence|].
  change (join sep (l :: x :: y)) with (l ++ sep ++ join sep (x :: y)).
  rewrite IH.
  change (join sep (l :: m :: r)) with (l ++ sep ++ join sep (m :: r)).
  now rewrite <- !app_assoc.
Qed.

Lemma join_prepend_first (sep p : str) (ls : list str) :
  ls <> [] -> join sep (prepend_first p ls) = p ++ join sep ls.
Proof.
  destruct ls as [|l [|m r]]; intros H; [congruence | reflexivity |].
  cbn [prepend_first].
  change (join sep ((p ++ l) :: m :: r))
    with ((p ++ l) ++ sep ++ join sep (m :: r)).
  change (join sep (l :: m :: r)) with (l ++ sep ++ join sep (m :: r)).
  now rewrite <- app_assoc.
Qed.

Lemma prepend_first_settled (ls : list str) :
  Forall settled ls -> Forall settled (prepend_first (py "##") ls).
Proof.
  destruct 1 as [|l ls Hl Hls]; [constructor|].
  constructor; [now apply settled_prepend | assumption].
Qed.

(** X18.  Formatting is not idempotent.  Lyrics that already carry the
    sentinels are wrapped once more: formatting a formatted text puts its
    whole, sentinels included, between two new "##". *)
Theorem format_lyrics_twice (lyrics : str) :
  format_lyrics_for_minimax (format_lyrics_for_minimax lyrics)
  = py "##" ++ format_lyrics_for_minimax lyrics ++ py "##".
Proof.
  rewrite (format_lyrics_body (format_lyrics_for_minimax lyrics)).
  f_equal. f_equal.
  rewrite format_lyrics_body.
  set (ls := kept (split nl lyrics)).
  change (lyrics_body lyrics) with (join [nl] ls).
  assert (Hls : Forall settled ls).
  { eapply Forall_impl; [|exact (kept_lines _ (split_no_sep nl lyrics))].
    apply settled_of_kept. }
  set (ls' := prepend_first (py "##") (append_last (py "##") ls)).
  assert (Hj : join [nl] ls' = py "##" ++ join [nl] ls ++ py "##").
  { unfold ls'. rewrite join_prepend_first by apply append_last_not_nil.
    now rewrite join_append_last. }
  assert (Hs : Forall settled ls')
    by (apply prepend_first_settled, append_last_settled, Hls).
  assert (Hne : ls' <> []).
  { unfold ls'. pose proof (append_last_not_nil (py "##") ls).
    destruct (append_last (py "##") ls); [congruence | discriminate]. }
  rewrite <- Hj. unfold lyrics_body.
  rewrite split_join.
  - apply f_equal. apply kept_fixed.
    eapply Forall_impl; [|exact Hs]. apply kept_of_settled.
  - exact Hne.
  - eapply Forall_impl; [|exact Hs]. unfold settled. tauto.
Qed.

(** ** Names that cannot be hashed, and the name in the link *)

Lemma encode_rejects_surrogate (name : str) (c : char) :
  In c name -> (55296 <= c)%N -> (c <= 57343)%N -> Codec.encode name = None.
Proof.
  intros Hin Hlo Hhi. induction name as [|x name IH]; [destruct Hin|].
  cbn [Codec.encode]. destruct Hin as [->|Hin].
  - assert (E : Codec.encode_char c = None).
    { unfold Codec.encode_char.
      assert (H1 : (c <? 128)%N = false) by (apply N.ltb_ge; lia).
      assert (H2 : (c <? 2048)%N = false) by (apply N.ltb_ge; lia).
      assert (H3 : (c <? 65536)%N = true) by (apply N.ltb_lt; lia).
      assert (H4 : (55296 <=? c)%N = true) by (apply N.leb_le; lia).
      assert (H5 : (c <=? 57343)%N = true) by (apply N.leb_le; lia).
      now rewrite H1, H2, H3, H4, H5. }
    now rewrite E.
  - rewrite (IH Hin). now destruct (Codec.encode_char x).
Qed.

(** X19.  A long name with a lone surrogate cannot be encoded for hashing.
    The function then shows the error and returns [None]; nothing is
    renamed. *)
Theorem long_surrogate_name_fails (w : world) (url purpose name : str)
  (s : app_state) (c : char) :
  ydl_prepare_filename w url (outtmpl purpose) = YdlFile name ->
  (200 < List.length (prepared_filename name))%nat ->
  In c (prepared_filename name) ->
  (55296 <= c)%N -> (c <= 57343)%N ->
  download_body w url purpose s
  = (Ok None, s,
     [YdlDownload url (outtmpl purpose);
      StError (ErrorDownloading UnicodeEncodeError)]).
Proof.
  intros Hy Hlen Hin Hlo Hhi.
  rewrite (download_body_long w url purpose name s Hy Hlen). cbv zeta.
  unfold hashed_filename.
  now rewrite (encode_rejects_surrogate _ c Hin Hlo Hhi).
Qed.

Lemma long_surrogate_name_fails_witness :
  download_body surrogate_world (py "https://youtu.be/x") (py "voice") start
  = (Ok None, start,
     [YdlDownload (py "https://youtu.be/x") (py "voice_%(title).50s.%(ext)s");
      StError (ErrorDownloading UnicodeEncodeError)]).
Proof.
  apply (long_surrogate_name_fails surrogate_world (py "https://youtu.be/x")
           (py "voice") surrogate_name start 56320 eq_refl).
  - vm_compute. lia.
  - assert (E : prepared_filename surrogate_name = surrogate_name)
      by (vm_compute; reflexivity).
    rewrite E. unfold surrogate_name. rewrite !in_app_iff.
    right. right. left. now left.
  - vm_compute. discriminate.
  - vm_compute. discriminate.
Defined.

Lemma basename_no_slash (path : str) :
  existsb (char_eqb 47) (basename path) = false.
Proof.
  induction path as [|c p IH]; [reflexivity|]. cbn [basename].
  destruct (existsb (char_eqb 47) p) eqn:E; [exact IH|].
  destruct (char_eqb c 47) eqn:Hc; [exact E|].
  cbn [existsb]. unfold char_eqb in *. rewrite N.eqb_sym, Hc. exact E.
Qed.

Lemma basename_is_suffix (path : str) :
  exists dir, path = dir ++ basename path /\
              (dir = [] \/ exists d, dir = d ++ [47%N]).
Proof.
  induction path as [|c p IH]; [exists []; auto|]. cbn [basename].
  destruct (existsb (char_eqb 47) p) eqn:E.
  - destruct IH as (dir & Hp & Hd). exists (c :: dir). split.
    + cbn [app]. now rewrite <- Hp.
    + right. destruct Hd as [-> | (d & ->)].
      * destruct p as [|x p]; [discriminate|].
        exfalso. cbn [app] in Hp.
        pose proof (basename_no_slash (x :: p)) as Hn.
        rewrite <- Hp in Hn. congruence.
      * exists (c :: d). reflexivity.
  - destruct (char_eqb c 47) eqn:Hc.
    + exists [c]. split; [reflexivity|]. right. exists [].
      apply N.eqb_eq in Hc. now subst c.
    + exists []. auto.
Qed.

(** X20.  The link names the file, not its directory, and carries what the
    file holds.  For a file the program has written, the helper returns
    an anchor whose href is the base64 of the file's bytes and whose
    download name is what follows the last slash of the path: it has no
    slash and the path ends with it; the state is untouched.  For a path
    with no such file the helper raises. *)
Theorem download_link_of_file (bin_file file_label : str) (s : app_state) :
  (forall data,
     lookup bin_file (files s) = Some data ->
     get_binary_file_downloader_html bin_file file_label s
     = (Ok (py "<a href=" ++ [dquote] ++ py "data:audio/mp3;base64,"
            ++ Codec.b64encode data ++ [dquote] ++ py " download="
            ++ [dquote] ++ basename bin_file ++ [dquote] ++ py ">Download "
            ++ file_label ++ py "</a>"), s, [])) /\
  (lookup bin_file (files s) = None ->
   get_binary_file_downloader_html bin_file file_label s
   = (Raise OSError, s, [])) /\
  existsb (char_eqb 47) (basename bin_file) = false /\
  endswith (basename bin_file) bin_file = true.
Proof.
  split; [|split; [|split]].
  - intros data H. unfold get_binary_file_downloader_html. unfold_monad.
    now rewrite H.
  - intros H. unfold get_binary_file_downloader_html. unfold_monad.
    now rewrite H.
  - apply basename_no_slash.
  - destruct (basename_is_suffix bin_file) as (dir & E & _).
    rewrite E at 2. apply endswith_app.
Qed.

Lemma download_link_of_file_witness :
  get_binary_file_downloader_html (py "/tmp/tmpk3v1a9xq.wav") (py "AI Cover")
    (add_file (py "/tmp/tmpk3v1a9xq.wav") (py "hello") start)
  = (Ok (href_of (py "aGVsbG8=") (py "tmpk3v1a9xq.wav") (py "AI Cover")),
     add_file (py "/tmp/tmpk3v1a9xq.wav") (py "hello") start, []).
Proof.
  exact (proj1 (download_link_of_file (py "/tmp/tmpk3v1a9xq.wav")
                  (py "AI Cover")
                  (add_file (py "/tmp/tmpk3v1a9xq.wav") (py "hello") start))
           (py "hello") eq_refl).
Defined.

(** ** The wizard as a whole *)

(** X21.  The step never leaves 1, 2, 3.  After any run, following any
    history of runs from a fresh session, in whatever worlds and with
    whatever clicks and answers (failures and escaping exceptions
    included), the session's step is 1, 2 or 3. *)
Theorem step_always_in_range (runs : list (world * widgets)) (w : world)
  (ui : widgets) :
  valid_step (session (state_after (main w ui (fst (session_run runs start))))).
Proof.
  apply main_keeps_step_valid, session_step_valid. left. reflexivity.
Qed.
